(** * Boggle: the board model and the word search of [boggle.py]

    A shallow embedding of the classes [BoggleBoard] and [BoggleGame].

    - Python integers are [Z]; a one-character string is an [ascii] (a code
      point below 256); a [str] is a [string]; [list(word)] is a
      [list ascii].
    - A raised exception is the [Raise] case of [result].
    - A [dict] is an association list in insertion order (the order Python
      iterates it in); storing under a key that is present replaces the
      value in place.
    - [recursive_string_search] pops from the list object it is given; the
      embedding returns the list as the call leaves it, next to the outcome,
      and [check_word_on_board] hands that same list to the next start
      position, as the source does. *)

From Stdlib Require Import ZArith List String Ascii Bool Lia Sorted.
Import ListNotations.

Local Open Scope Z_scope.

(** ** Python values and exceptions *)

Inductive exn : Set :=
| IndexError
| InitError
| AttributeError
| ValueError.

Inductive result (A : Type) : Type :=
| Ok (a : A)
| Raise (e : exn).

Arguments Ok {A} a.
Arguments Raise {A} e.

Definition bind {A B : Type} (r : result A) (k : A -> result B) : result B :=
  match r with
  | Ok a => k a
  | Raise e => Raise e
  end.

Notation "x <- r ;; k" := (bind r (fun x => k))
  (at level 61, r at next level, right associativity).

(** What a method hands back: [True], [False], or [None] when the body runs
    off its end. *)
Inductive pyret : Set :=
| RBool (b : bool)
| RNone.

Definition truthy (v : pyret) : bool :=
  match v with
  | RBool b => b
  | RNone => false
  end.

Definition letter : Set := ascii.
Definition pos : Set := (Z * Z)%type.

Definition letter_eqb (a b : letter) : bool := Ascii.eqb a b.

Definition pos_eqb (p q : pos) : bool :=
  (fst p =? fst q) && (snd p =? snd q).

Definition len {A : Type} (l : list A) : Z := Z.of_nat (List.length l).

(** [l[i]]: a negative index counts from the end, anything outside
    [-len, len) raises [IndexError]. *)
Definition py_index {A : Type} (l : list A) (i : Z) : result A :=
  let k := if i <? 0 then i + len l else i in
  if (0 <=? k) && (k <? len l) then
    match nth_error l (Z.to_nat k) with
    | Some a => Ok a
    | None => Raise IndexError
    end
  else Raise IndexError.

(** [l[lo:hi]]: negative bounds count from the end, then both are clamped. *)
Definition clamp_index (n k : Z) : Z :=
  if k <? 0 then Z.max 0 (k + n) else Z.min k n.

Definition py_slice {A : Type} (l : list A) (lo hi : Z) : list A :=
  let a := clamp_index (len l) lo in
  let b := clamp_index (len l) hi in
  firstn (Z.to_nat (b - a)) (skipn (Z.to_nat a) l).

(** [range(start, stop, step)]; a zero step raises [ValueError]. *)
Definition range_count (start stop step : Z) : Z :=
  if 0 <? step then (stop - start + step - 1) / step
  else (start - stop - step - 1) / (- step).

Definition py_range (start stop step : Z) : result (list Z) :=
  if step =? 0 then Raise ValueError
  else Ok (map (fun k => start + Z.of_nat k * step)
               (seq 0 (Z.to_nat (range_count start stop step)))).

(** [enumerate(l)], counting from [k]. *)
Fixpoint enumerate_from {A : Type} (k : Z) (l : list A) : list (Z * A) :=
  match l with
  | [] => []
  | a :: l' => (k, a) :: enumerate_from (k + 1) l'
  end.

Definition enumerate {A : Type} (l : list A) : list (Z * A) :=
  enumerate_from 0 l.

(** ** Dictionaries keyed by positions *)

Definition dict (V : Type) : Type := list (pos * V).

Fixpoint dict_set {V : Type} (d : dict V) (k : pos) (v : V) : dict V :=
  match d with
  | [] => [(k, v)]
  | (k', v') :: d' =>
      if pos_eqb k' k then (k', v) :: d' else (k', v') :: dict_set d' k v
  end.

Definition dict_keys {V : Type} (d : dict V) : list pos := map fst d.
Definition dict_values {V : Type} (d : dict V) : list V := map snd d.
Definition dict_items {V : Type} (d : dict V) : list (pos * V) := d.

(** ** str.isalpha

    Non-empty, and every character alphabetic.  For the code points below
    256 the alphabetic ones are the ASCII letters and the letters of the
    Latin-1 supplement. *)

Definition char_isalpha (c : ascii) : bool :=
  let n := Z.of_N (N_of_ascii c) in
  ((65 <=? n) && (n <=? 90)) || ((97 <=? n) && (n <=? 122))
  || (n =? 170) || (n =? 181) || (n =? 186)
  || ((192 <=? n) && (n <=? 214)) || ((216 <=? n) && (n <=? 246))
  || ((248 <=? n) && (n <=? 255)).

Definition isalpha (s : string) : bool :=
  match list_ascii_of_string s with
  | [] => false
  | cs => forallb char_isalpha cs
  end.

(** ** class BoggleBoard *)

Record BoggleBoard : Set := mkBoard {
  size : Z;
  letter_list : list letter;
  board : list (list letter)
}.

(** The [size] keyword argument: an [int], or an object of another type. *)
Inductive size_arg : Set :=
| SizeInt (n : Z)
| SizeOther.

(** [build_letter_list].  [choice k] stands for the outcome of the [k]-th
    call of [random.choice]. *)
Definition build_letter_list (choice : nat -> letter) (sz : Z)
    (letters : option string) : list letter :=
  match letters with
  | Some (String c s) => list_ascii_of_string (String c s)
  | _ => map choice (seq 0 (Z.to_nat (sz * sz)))
  end.

(** [build_board]. *)
Definition build_board (sz : Z) (ll : list letter) : result (list (list letter)) :=
  starts <- py_range 0 (len ll) sz ;;
  Ok (map (fun i => py_slice ll i (i + sz)) starts).

(** [BoggleBoard.__init__(size=..., letters=...)]; an absent keyword is
    [None]. *)
Definition BoggleBoard_init (choice : nat -> letter)
    (kw_size : option size_arg) (kw_letters : option string)
  : result BoggleBoard :=
  sz <- match kw_size with
        | None => Ok 5
        | Some (SizeInt n) => Ok n
        | Some SizeOther => Raise InitError
        end ;;
  _ <- match kw_letters with
       | None => Ok tt
       | Some letters =>
           if negb (isalpha letters) then Raise InitError
           else if negb (len (list_ascii_of_string letters) =? sz * sz)
                then Raise InitError
                else Ok tt
       end ;;
  let ll := build_letter_list choice sz kw_letters in
  b <- build_board sz ll ;;
  Ok (mkBoard sz ll b).

(** [build_neighbor_map]: the eight labels in the order the dict literal
    lists them. *)
Definition build_neighbor_map (sz i_row j_col : Z) : list (string * option pos) :=
  let idx_edge := sz - 1 in
  [ ("left"%string,
       if 0 <? j_col then Some (i_row, j_col - 1) else None);
    ("right"%string,
       if j_col <? idx_edge then Some (i_row, j_col + 1) else None);
    ("up"%string,
       if 0 <? i_row then Some (i_row - 1, j_col) else None);
    ("down"%string,
       if i_row <? idx_edge then Some (i_row + 1, j_col) else None);
    ("d-up-left"%string,
       if (0 <? i_row) && (0 <? j_col)
       then Some (i_row - 1, j_col - 1) else None);
    ("d-up-right"%string,
       if (0 <? i_row) && (j_col <? idx_edge)
       then Some (i_row - 1, j_col + 1) else None);
    ("d-down-left"%string,
       if (i_row <? idx_edge) && (0 <? j_col)
       then Some (i_row + 1, j_col - 1) else None);
    ("d-down-right"%string,
       if (i_row <? idx_edge) && (j_col <? idx_edge)
       then Some (i_row + 1, j_col + 1) else None) ].

(** [get_letter_at_position]. *)
Definition get_letter_at_position (b : BoggleBoard) (i_row j_col : Z)
  : result letter :=
  row <- py_index (board b) i_row ;;
  py_index row j_col.

(** The loop of [nearest_neighbor_data] over the values of the map. *)
Fixpoint nn_loop (b : BoggleBoard) (neighbor_positions : list (option pos))
    (nn_data : dict letter) : result (dict letter) :=
  match neighbor_positions with
  | [] => Ok nn_data
  | None :: rest => nn_loop b rest nn_data
  | Some t_pos :: rest =>
      c <- get_letter_at_position b (fst t_pos) (snd t_pos) ;;
      nn_loop b rest (dict_set nn_data t_pos c)
  end.

Definition nearest_neighbor_data (b : BoggleBoard) (i_row j_col : Z)
  : result (dict letter) :=
  nn_loop b (map snd (build_neighbor_map (size b) i_row j_col)) [].

(** An object whose attribute [values] is looked up: a dict has it, a bound
    method does not. *)
Inductive receiver : Type :=
| DictObject (d : dict letter)
| BoundMethod (name : string).

Definition call_values (o : receiver) : result (list letter) :=
  match o with
  | DictObject d => Ok (dict_values d)
  | BoundMethod _ => Raise AttributeError
  end.

(** [nearest_neighbor_letters]: [.values()] is taken of the method
    [self.nearest_neighbor_data] itself, which is never called. *)
Definition nearest_neighbor_letters (b : BoggleBoard) (i_row j_col : Z)
  : result (list letter) :=
  call_values (BoundMethod "nearest_neighbor_data").

(** [positions_for_letter]: the two nested loops, appending to
    [position_tuples]. *)
Definition positions_for_letter (b : BoggleBoard) (l : letter) : list pos :=
  fold_left
    (fun position_tuples '(i, row) =>
       fold_left
         (fun position_tuples '(j, char) =>
            if letter_eqb char l then position_tuples ++ [(i, j)]
            else position_tuples)
         (enumerate row) position_tuples)
    (enumerate (board b)) [].

(** ** class BoggleGame *)

(** [recursive_string_search].  The second component is the list object
    after the call. *)
Fixpoint recursive_string_search (b : BoggleBoard) (i_row j_col : Z)
    (letter_list : list letter) {struct letter_list}
  : result pyret * list letter :=
  match letter_list with
  | [] => (Raise IndexError, [])
  | current_letter :: popped =>
      match popped with
      | [] => (Raise IndexError, popped)
      | next_letter :: _ =>
          match nearest_neighbor_data b i_row j_col with
          | Raise e => (Raise e, popped)
          | Ok nn_data =>
              let nn_letters := dict_values nn_data in
              if negb (existsb (letter_eqb next_letter) nn_letters) then
                (Ok (RBool false), popped)
              else
                match find (fun it => letter_eqb (snd it) next_letter)
                           (dict_items nn_data) with
                | Some (t_pos, _) =>
                    if len popped =? 1 then (Ok (RBool true), popped)
                    else recursive_string_search b (fst t_pos) (snd t_pos) popped
                | None => (Ok RNone, popped)
                end
          end
      end
  end.

(** The loop of [check_word_on_board] over the start positions; every
    iteration works on the same list object. *)
Fixpoint start_loop (b : BoggleBoard) (start_positions : list pos)
    (status : pyret) (letter_list : list letter)
  : result pyret * list letter :=
  match start_positions with
  | [] => (Ok status, letter_list)
  | (i_row, j_col) :: rest =>
      match recursive_string_search b i_row j_col letter_list with
      | (Raise e, ll) => (Raise e, ll)
      | (Ok st, ll) =>
          if truthy st then (Ok st, ll) else start_loop b rest st ll
      end
  end.

Definition check_word_on_board (b : BoggleBoard) (word : string)
  : result pyret :=
  let status := RBool false in
  let letter_list := list_ascii_of_string word in
  first <- py_index letter_list 0 ;;
  let start_positions := positions_for_letter b first in
  if negb (len start_positions =? 0) then
    fst (start_loop b start_positions status letter_list)
  else Ok status.

(** The game object. *)
Record BoggleGame : Set := mkGame {
  game_board : BoggleBoard;
  debug : Z;
  scored_words : list (string * Z)
}.

(** ** The search on a store of list objects

    The lists of letters are objects that [pop] can change: the board's
    [letter_list], the rows of its matrix, and the list that
    [check_word_on_board] makes from the word.  The store holds them; an
    address is an index into it, and [list(...)] puts a new object at the
    end.  The board keeps the addresses of its lists; whatever reads the
    board reads the store as it is at that moment. *)

Definition addr : Set := nat.
Definition store : Set := list (list letter).

Definition read (st : store) (a : addr) : list letter := nth a st [].

Fixpoint write (st : store) (a : addr) (v : list letter) : store :=
  match st, a with
  | [], _ => []
  | _ :: st', O => v :: st'
  | x :: st', S a' => x :: write st' a' v
  end.

Definition alloc (st : store) (v : list letter) : addr * store :=
  (List.length st, st ++ [v]).

Record HeapBoard : Set := mkHeapBoard {
  hb_size : Z;
  hb_letter_list : addr;
  hb_board : list addr
}.

(** The board as the store holds it now. *)
Definition view (st : store) (hb : HeapBoard) : BoggleBoard :=
  mkBoard (hb_size hb) (read st (hb_letter_list hb))
    (map (read st) (hb_board hb)).

Definition heap_board_valid (hb : HeapBoard) (st : store) : bool :=
  forallb (fun a => (a <? List.length st)%nat)
    (hb_letter_list hb :: hb_board hb).

(** The lists [__init__] makes for a board, put into the store. *)
Definition load_board (b : BoggleBoard) (st : store) : HeapBoard * store :=
  (mkHeapBoard (size b) (List.length st)
     (seq (S (List.length st)) (List.length (board b))),
   st ++ letter_list b :: board b).

(** [recursive_string_search] on the list object at address [a], whose
    letters are [letter_list]: [pop(0)] stores the shortened list at [a], and
    the neighbor data is read from the store after that. *)
Fixpoint heap_search (hb : HeapBoard) (i_row j_col : Z) (a : addr)
    (letter_list : list letter) (st : store) {struct letter_list}
  : result pyret * store :=
  match letter_list with
  | [] => (Raise IndexError, st)
  | current_letter :: popped =>
      let st1 := write st a popped in
      match popped with
      | [] => (Raise IndexError, st1)
      | next_letter :: _ =>
          match nearest_neighbor_data (view st1 hb) i_row j_col with
          | Raise e => (Raise e, st1)
          | Ok nn_data =>
              let nn_letters := dict_values nn_data in
              if negb (existsb (letter_eqb next_letter) nn_letters) then
                (Ok (RBool false), st1)
              else
                match find (fun it => letter_eqb (snd it) next_letter)
                           (dict_items nn_data) with
                | Some (t_pos, _) =>
                    if len popped =? 1 then (Ok (RBool true), st1)
                    else heap_search hb (fst t_pos) (snd t_pos) a popped st1
                | None => (Ok RNone, st1)
                end
          end
      end
  end.

Definition heap_recursive_string_search (hb : HeapBoard) (i_row j_col : Z)
    (a : addr) (st : store) : result pyret * store :=
  heap_search hb i_row j_col a (read st a) st.

Fixpoint heap_start_loop (hb : HeapBoard) (start_positions : list pos)
    (status : pyret) (a : addr) (st : store) : result pyret * store :=
  match start_positions with
  | [] => (Ok status, st)
  | (i_row, j_col) :: rest =>
      match heap_recursive_string_search hb i_row j_col a st with
      | (Raise e, st') => (Raise e, st')
      | (Ok s, st') =>
          if truthy s then (Ok s, st') else heap_start_loop hb rest s a st'
      end
  end.

(** [check_word_on_board]: [list(word)] is a new object of the store. *)
Definition heap_check_word_on_board (hb : HeapBoard) (word : string)
    (st : store) : result pyret * store :=
  let status := RBool false in
  let (letter_list, st0) := alloc st (list_ascii_of_string word) in
  match py_index (read st0 letter_list) 0 with
  | Raise e => (Raise e, st0)
  | Ok first =>
      let start_positions := positions_for_letter (view st0 hb) first in
      if negb (len start_positions =? 0) then
        heap_start_loop hb start_positions status letter_list st0
      else (Ok status, st0)
  end.

(** ** Vocabulary of the properties *)

(** An N x N matrix, N >= 1, as [build_board] lays it out. *)
Definition board_ok (b : BoggleBoard) : bool :=
  (1 <=? size b) && (len (board b) =? size b)
  && forallb (fun row => len row =? size b) (board b).

Definition in_grid (n : Z) (p : pos) : bool :=
  (0 <=? fst p) && (fst p <? n) && (0 <=? snd p) && (snd p <? n).

(** The letter a position holds, when the position is a cell of the
    matrix. *)
Definition cell_at (b : BoggleBoard) (p : pos) : option letter :=
  if (0 <=? fst p) && (0 <=? snd p) then
    match nth_error (board b) (Z.to_nat (fst p)) with
    | Some row => nth_error row (Z.to_nat (snd p))
    | None => None
    end
  else None.

Definition cell (b : BoggleBoard) (p : pos) : letter :=
  match cell_at b p with
  | Some c => c
  | None => zero
  end.

(** The eight directions as (row, column) offsets: left, right, up, down,
    up-left, up-right, down-left, down-right. *)
Definition compass : list (Z * Z) :=
  [ (0, -1); (0, 1); (-1, 0); (1, 0); (-1, -1); (-1, 1); (1, -1); (1, 1) ].

Definition shift (p : pos) (d : Z * Z) : pos :=
  (fst p + fst d, snd p + snd d).

(** The spec's neighbor set: the directions in compass order, those that
    leave the grid dropped. *)
Definition neighbors_of (n : Z) (p : pos) : list pos :=
  filter (in_grid n) (map (shift p) compass).

(** The spec's step: the first neighbor in compass order that holds the
    needed letter. *)
Definition first_match (b : BoggleBoard) (p : pos) (l : letter) : option pos :=
  find (fun q => letter_eqb (cell b q) l) (neighbors_of (size b) p).

Definition on_rim (n k : Z) : bool := (k =? 0) || (k =? n - 1).

Definition is_corner (n : Z) (p : pos) : bool :=
  on_rim n (fst p) && on_rim n (snd p).

Definition is_edge_non_corner (n : Z) (p : pos) : bool :=
  xorb (on_rim n (fst p)) (on_rim n (snd p)).

Definition is_interior (n : Z) (p : pos) : bool :=
  negb (on_rim n (fst p)) && negb (on_rim n (snd p)).

Definition adjacent (p q : pos) : bool :=
  (Z.abs (fst p - fst q) <=? 1) && (Z.abs (snd p - snd q) <=? 1)
  && negb (pos_eqb p q).

(** A trace of a word: one cell per letter, each holding its letter,
    consecutive cells touching. *)
Fixpoint is_trace (b : BoggleBoard) (path : list pos) (w : list letter) : bool :=
  match path, w with
  | [], [] => true
  | p :: path', c :: w' =>
      match cell_at b p with
      | Some c' => letter_eqb c' c
      | None => false
      end
      && match path' with
         | [] => true
         | q :: _ => adjacent p q
         end
      && is_trace b path' w'
  | _, _ => false
  end.

(** Row-major order on positions. *)
Definition pos_lt (p q : pos) : Prop :=
  fst p < fst q \/ (fst p = fst q /\ snd p < snd q).

Definition somes {A : Type} (l : list (option A)) : list A :=
  flat_map (fun o => match o with Some a => [a] | None => [] end) l.

(** The size [__init__] works with. *)
Definition effective_size (kw_size : option size_arg) : option Z :=
  match kw_size with
  | None => Some 5
  | Some (SizeInt n) => Some n
  | Some SizeOther => None
  end.

(** ** The boards of the examples *)

Definition e_choice : nat -> letter := fun _ => "e"%char.

Definition board_cats : BoggleBoard :=
  mkBoard 4 (list_ascii_of_string "catsoxxxxxxxxxxx")
    [ list_ascii_of_string "cats"; list_ascii_of_string "oxxx";
      list_ascii_of_string "xxxx"; list_ascii_of_string "xxxx" ].

Definition board_two_c : BoggleBoard :=
  mkBoard 3 (list_ascii_of_string "cxxxxxcat")
    [ list_ascii_of_string "cxx"; list_ascii_of_string "xxx";
      list_ascii_of_string "cat" ].

Definition board_ab : BoggleBoard :=
  mkBoard 2 (list_ascii_of_string "abxx")
    [ list_ascii_of_string "ab"; list_ascii_of_string "xx" ].

Definition board_dead_end : BoggleBoard :=
  mkBoard 3 (list_ascii_of_string "xxxbabxxc")
    [ list_ascii_of_string "xxx"; list_ascii_of_string "bab";
      list_ascii_of_string "xxc" ].

(** ** Printing the board *)

(** [c * k]: empty for a count that is not positive. *)
Definition str_repeat (c : ascii) (k : Z) : string :=
  string_of_list_ascii (repeat c (Z.to_nat k)).

(** [show]: the lines printed, in order. *)
Definition show (b : BoggleBoard) : list string :=
  let horiz_tile_count := 3 * size b + 4 in
  [str_repeat "-" horiz_tile_count]
  ++ map (fun row =>
            let row_chars :=
              String.concat EmptyString
                (map (fun c => (" " ++ String c EmptyString ++ " ")%string) row)
            in ("| " ++ row_chars ++ " |")%string)
       (board b)
  ++ [str_repeat "-" horiz_tile_count].

(** ** Playing words *)

(** What can end a call of the game layer: an exception of the board and
    search code, the [TypeError] of [dict.update(None)], or the dictionary
    lookup not returning (it raised, or left the process). *)
Inductive failure : Set :=
| Exn (e : exn)
| TypeError
| LookupFailed.

Inductive outcome (A : Type) : Type :=
| Returned (a : A)
| Failed (f : failure).

Arguments Returned {A} a.
Arguments Failed {A} f.

(** A dict in insertion order, over keys compared by [eqb]. *)
Fixpoint assoc_get {K V : Type} (eqb : K -> K -> bool) (d : list (K * V))
    (k : K) : option V :=
  match d with
  | [] => None
  | (k', v) :: d' => if eqb k' k then Some v else assoc_get eqb d' k
  end.

Fixpoint assoc_set {K V : Type} (eqb : K -> K -> bool) (d : list (K * V))
    (k : K) (v : V) : list (K * V) :=
  match d with
  | [] => [(k, v)]
  | (k', v') :: d' =>
      if eqb k' k then (k', v) :: d' else (k', v') :: assoc_set eqb d' k v
  end.

Definition word_length_score : list (Z * Z) :=
  [ (2, 2); (3, 5); (4, 6); (5, 8) ].

Definition max_score : Z := 10.

Section Game.

(** The outcome of [__is_in_dictionary], the lookup at the dictionary
    service: [None] when the call does not return. *)
Variable is_in_dictionary : string -> option bool.

(** [is_playable_word]: the status of the two checks is overwritten by
    the status of the lookup. *)
Definition is_playable_word (word : string) : outcome bool :=
  let status := true in
  let status :=
    if len (list_ascii_of_string word) <? 2 then false else status in
  match is_in_dictionary word with
  | Some status => Returned status
  | None => Failed LookupFailed
  end.

(** [play_word]: [None], or the one-entry dict of the word and its
    score. *)
Definition play_word (word : string) (self : BoggleGame)
  : outcome (option (string * Z)) * BoggleGame :=
  match is_playable_word word with
  | Failed f => (Failed f, self)
  | Returned false => (Returned None, self)
  | Returned true =>
      match check_word_on_board (game_board self) word with
      | Raise e => (Failed (Exn e), self)
      | Ok on_board =>
          if truthy on_board then
            let score :=
              match assoc_get Z.eqb word_length_score
                      (len (list_ascii_of_string word)) with
              | Some s => if s =? 0 then max_score else s
              | None => max_score
              end in
            (Returned (Some (word, score)),
             mkGame (game_board self) (debug self)
               (assoc_set String.eqb (scored_words self) word score))
          else (Returned None, self)
      end
  end.

(** [play_word_list]: [all_results.update(d_result)] raises [TypeError]
    when [d_result] is [None]. *)
Fixpoint play_word_list_loop (word_list : list string)
    (all_results : list (string * Z)) (self : BoggleGame)
  : outcome (list (string * Z)) * BoggleGame :=
  match word_list with
  | [] => (Returned all_results, self)
  | word :: rest =>
      match play_word word self with
      | (Failed f, self') => (Failed f, self')
      | (Returned None, self') => (Failed TypeError, self')
      | (Returned (Some (w, score)), self') =>
          play_word_list_loop rest
            (assoc_set String.eqb all_results w score) self'
      end
  end.

Definition play_word_list (word_list : list string) (self : BoggleGame)
  : outcome (list (string * Z)) * BoggleGame :=
  play_word_list_loop word_list [] self.

End Game.

Definition current_words (self : BoggleGame) : list string :=
  map fst (scored_words self).

(** [sum(values)]: from 0, adding left to right. *)
Definition current_score (self : BoggleGame) : Z :=
  fold_left Z.add (map snd (scored_words self)) 0.

(** The score of a word by its number of letters. *)
Definition score_of_length (n : Z) : Z :=
  if n =? 2 then 2
  else if n =? 3 then 5
  else if n =? 4 then 6
  else if n =? 5 then 8
  else 10.

Definition word_score (word : string) : Z :=
  score_of_length (len (list_ascii_of_string word)).

(** An oracle for the examples: every word is in the dictionary. *)
Definition any_word : string -> option bool := fun _ => Some true.

Definition game_cats : BoggleGame := mkGame board_cats 0 [].

Definition board_abcd : BoggleBoard :=
  mkBoard 2 (list_ascii_of_string "abcd")
    [ list_ascii_of_string "ab"; list_ascii_of_string "cd" ].

(** Settles the integer tests of a goal whose outcome follows from the
    context. *)
Ltac decide_tests :=
  repeat match goal with
    | |- context [?a <? ?b] =>
        first [ replace (a <? b) with true by (symmetry; apply Z.ltb_lt; lia)
              | replace (a <? b) with false by (symmetry; apply Z.ltb_ge; lia) ]
    | |- context [?a <=? ?b] =>
        first [ replace (a <=? b) with true by (symmetry; apply Z.leb_le; lia)
              | replace (a <=? b) with false by (symmetry; apply Z.leb_gt; lia) ]
    | |- context [?a =? ?b] =>
        first [ replace (a =? b) with true by (symmetry; apply Z.eqb_eq; lia)
              | replace (a =? b) with false by (symmetry; apply Z.eqb_neq; lia) ]
    end.

(** * Properties *)

(** ** Python primitives *)

Lemma pos_eqb_eq (p q : pos) : pos_eqb p q = true <-> p = q.
Proof.
  destruct p as [a b], q as [c d]; unfold pos_eqb; simpl.
  rewrite andb_true_iff, !Z.eqb_eq. split.
  - intros [-> ->]; reflexivity.
  - intros H; inversion H; auto.
Qed.

Lemma pos_eqb_neq (p q : pos) : pos_eqb p q = false <-> p <> q.
Proof.
  rewrite <- pos_eqb_eq. destruct (pos_eqb p q); split; congruence.
Qed.

Lemma letter_eqb_eq (a b : letter) : letter_eqb a b = true <-> a = b.
Proof. apply Ascii.eqb_eq. Qed.

Lemma len_nonneg {A : Type} (l : list A) : 0 <= len l.
Proof. unfold len; lia. Qed.

Lemma py_index_in_range {A : Type} (l : list A) (i : Z) :
  0 <= i < len l ->
  exists a, py_index l i = Ok a /\ nth_error l (Z.to_nat i) = Some a.
Proof.
  intros Hi. unfold py_index.
  replace (i <? 0) with false by (symmetry; apply Z.ltb_ge; lia).
  replace (0 <=? i) with true by (symmetry; apply Z.leb_le; lia).
  replace (i <? len l) with true by (symmetry; apply Z.ltb_lt; lia).
  simpl. destruct (nth_error l (Z.to_nat i)) as [a|] eqn:E.
  - exists a; auto.
  - apply nth_error_None in E. unfold len in Hi. lia.
Qed.

Lemma dict_set_fresh {V : Type} (d : dict V) (k : pos) (v : V) :
  ~ In k (dict_keys d) -> dict_set d k v = d ++ [(k, v)].
Proof.
  induction d as [|[k' v'] d IH]; simpl; intros Hk; [reflexivity|].
  destruct (pos_eqb k' k) eqn:E.
  - apply pos_eqb_eq in E. tauto.
  - rewrite IH by tauto. reflexivity.
Qed.

(** ** Cells of a well-formed board *)

Lemma board_ok_inv (b : BoggleBoard) :
  board_ok b = true ->
  1 <= size b /\ len (board b) = size b /\
  forall row, In row (board b) -> len row = size b.
Proof.
  unfold board_ok. rewrite !andb_true_iff, Z.leb_le, Z.eqb_eq, forallb_forall.
  intros [[H1 H2] H3]. repeat split; auto.
  intros row Hrow. apply Z.eqb_eq. auto.
Qed.

Lemma in_grid_inv (n : Z) (p : pos) :
  in_grid n p = true <-> 0 <= fst p < n /\ 0 <= snd p < n.
Proof.
  unfold in_grid. rewrite !andb_true_iff, !Z.leb_le, !Z.ltb_lt. lia.
Qed.

Lemma get_letter_in_grid (b : BoggleBoard) (p : pos) :
  board_ok b = true -> in_grid (size b) p = true ->
  get_letter_at_position b (fst p) (snd p) = Ok (cell b p)
  /\ cell_at b p = Some (cell b p).
Proof.
  intros Hb Hp. apply board_ok_inv in Hb. destruct Hb as (_ & Hlen & Hrows).
  apply in_grid_inv in Hp. destruct Hp as [Hi Hj].
  destruct (py_index_in_range (board b) (fst p)) as (row & Hrow & Hnth); [lia|].
  assert (Hin : In row (board b)) by (eapply nth_error_In; eauto).
  destruct (py_index_in_range row (snd p)) as (c & Hc & Hnc).
  { rewrite (Hrows row Hin). lia. }
  unfold get_letter_at_position, cell, cell_at.
  rewrite Hrow; simpl. rewrite Hnth, Hnc.
  replace (0 <=? fst p) with true by (symmetry; apply Z.leb_le; lia).
  replace (0 <=? snd p) with true by (symmetry; apply Z.leb_le; lia).
  simpl. auto.
Qed.

Lemma cell_at_in_grid (b : BoggleBoard) (p : pos) (c : letter) :
  board_ok b = true -> cell_at b p = Some c -> in_grid (size b) p = true.
Proof.
  intros Hb Hc. apply board_ok_inv in Hb. destruct Hb as (_ & Hlen & Hrows).
  unfold cell_at in Hc.
  destruct ((0 <=? fst p) && (0 <=? snd p)) eqn:E; [|discriminate].
  apply andb_true_iff in E. rewrite !Z.leb_le in E.
  destruct (nth_error (board b) (Z.to_nat (fst p))) as [row|] eqn:Er;
    [|discriminate].
  assert (Hr : (Z.to_nat (fst p) < List.length (board b))%nat)
    by (apply nth_error_Some; congruence).
  assert (Hc' : (Z.to_nat (snd p) < List.length row)%nat)
    by (apply nth_error_Some; congruence).
  apply nth_error_In in Er. apply Hrows in Er.
  unfold len in *. apply in_grid_inv. lia.
Qed.

(** ** The neighbor data *)

Lemma nn_loop_spec (b : BoggleBoard) (vals : list (option pos)) :
  board_ok b = true ->
  (forall p, In p (somes vals) -> in_grid (size b) p = true) ->
  NoDup (somes vals) ->
  forall acc,
    (forall p, In p (somes vals) -> ~ In p (dict_keys acc)) ->
    nn_loop b vals acc
    = Ok (acc ++ map (fun p => (p, cell b p)) (somes vals)).
Proof.
  intros Hb. induction vals as [|[p|] vals IH]; simpl; intros Hin Hnd acc Hacc.
  - rewrite app_nil_r. reflexivity.
  - destruct (get_letter_in_grid b p Hb) as [Hget _]; [apply Hin; auto|].
    rewrite Hget; simpl. inversion Hnd as [|? ? Hp Hnd']; subst.
    rewrite dict_set_fresh by (apply Hacc; auto).
    rewrite IH; auto.
    + rewrite <- app_assoc. reflexivity.
    + intros q Hq. unfold dict_keys. rewrite map_app, in_app_iff. simpl.
      intros [H|[H|[]]].
      * apply (Hacc q); auto.
      * subst. contradiction.
  - apply IH; auto.
Qed.

Lemma compass_shift_NoDup (p : pos) : NoDup (map (shift p) compass).
Proof.
  destruct p as [i j]. unfold compass, shift; simpl.
  repeat constructor; simpl; intros H;
    repeat match goal with
      | H : _ \/ _ |- _ => destruct H as [H|H]
      | H : (_, _) = (_, _) |- _ => inversion H; lia
      | H : False |- _ => contradiction
      end.
Qed.

Lemma neighbors_of_NoDup (n : Z) (p : pos) : NoDup (neighbors_of n p).
Proof. apply NoDup_filter, compass_shift_NoDup. Qed.

Lemma neighbors_of_in_grid (n : Z) (p q : pos) :
  In q (neighbors_of n p) -> in_grid n q = true.
Proof. unfold neighbors_of. rewrite filter_In. tauto. Qed.

(** The source's per-direction guards keep exactly the directions that stay
    inside the grid. *)
Lemma build_neighbor_map_values (n i j : Z) :
  in_grid n (i, j) = true ->
  somes (map snd (build_neighbor_map n i j)) = neighbors_of n (i, j).
Proof.
  intros Hp. apply in_grid_inv in Hp. simpl in Hp.
  unfold build_neighbor_map, neighbors_of, compass, shift, in_grid, somes.
  cbn [map fst snd filter flat_map].
  destruct (Z.ltb_spec 0 j), (Z.ltb_spec j (n - 1)),
           (Z.ltb_spec 0 i), (Z.ltb_spec i (n - 1));
    cbn [andb app]; decide_tests; cbn [andb app]; repeat f_equal; lia.
Qed.

Lemma nearest_neighbor_data_spec (b : BoggleBoard) (i j : Z) :
  board_ok b = true -> in_grid (size b) (i, j) = true ->
  nearest_neighbor_data b i j
  = Ok (map (fun p => (p, cell b p)) (neighbors_of (size b) (i, j))).
Proof.
  intros Hb Hp. unfold nearest_neighbor_data.
  rewrite nn_loop_spec; auto;
    rewrite build_neighbor_map_values by assumption.
  - reflexivity.
  - apply neighbors_of_in_grid.
  - apply neighbors_of_NoDup.
Qed.

Lemma neighbors_of_adjacent (n : Z) (p q : pos) :
  In q (neighbors_of n p) <-> in_grid n q = true /\ adjacent p q = true.
Proof.
  destruct p as [i j], q as [qi qj].
  unfold neighbors_of. rewrite filter_In.
  unfold adjacent, pos_eqb, compass, shift; cbn [map fst snd In].
  rewrite !andb_true_iff, negb_true_iff, andb_false_iff,
    !Z.leb_le, !Z.eqb_neq.
  split.
  - intros [H Hg]; split; [exact Hg|].
    repeat match goal with
      | H : _ \/ _ |- _ => destruct H as [H|H]
      | H : (_, _) = (_, _) |- _ => inversion H; clear H
      | H : False |- _ => contradiction
      end; lia.
  - intros [Hg [[Hi Hj] Hne]]; split; [|exact Hg].
    assert (Di : qi = i + -1 \/ qi = i + 0 \/ qi = i + 1) by lia.
    assert (Dj : qj = j + -1 \/ qj = j + 0 \/ qj = j + 1) by lia.
    destruct Di as [->|[->| ->]], Dj as [->|[->| ->]];
      try (exfalso; lia); tauto.
Qed.

Lemma neighbors_of_count (n i j : Z) :
  2 <= n -> in_grid n (i, j) = true ->
  List.length (neighbors_of n (i, j))
  = if is_corner n (i, j) then 3%nat
    else if is_edge_non_corner n (i, j) then 5%nat else 8%nat.
Proof.
  intros Hn Hp. apply in_grid_inv in Hp. simpl in Hp.
  unfold neighbors_of, compass, shift, in_grid, is_corner,
    is_edge_non_corner, on_rim.
  cbn [map fst snd filter].
  destruct (Z.ltb_spec 0 j), (Z.ltb_spec j (n - 1)),
           (Z.ltb_spec 0 i), (Z.ltb_spec i (n - 1));
    try lia; decide_tests; reflexivity.
Qed.

(** C4: on an N x N board with N >= 2, [nearest_neighbor_data] of a cell
    returns a dict whose keys are pairwise different, are exactly the
    positions of the grid that touch the cell, and number 3 at a corner, 5
    on an edge off the corners, and 8 in the interior. *)
Theorem neighbor_data_count (b : BoggleBoard) (i j : Z) :
  board_ok b = true -> 2 <= size b -> in_grid (size b) (i, j) = true ->
  exists d,
    nearest_neighbor_data b i j = Ok d
    /\ NoDup (dict_keys d)
    /\ (forall q, In q (dict_keys d)
                  <-> in_grid (size b) q = true /\ adjacent (i, j) q = true)
    /\ (is_corner (size b) (i, j) = true -> len d = 3)
    /\ (is_edge_non_corner (size b) (i, j) = true -> len d = 5)
    /\ (is_interior (size b) (i, j) = true -> len d = 8).
Proof.
  intros Hb Hn Hp. eexists. split; [apply nearest_neighbor_data_spec; auto|].
  assert (Hk : forall L : list pos,
             dict_keys (map (fun p => (p, cell b p)) L) = L).
  { intros L. unfold dict_keys. rewrite map_map; simpl. apply map_id. }
  rewrite Hk. split; [apply neighbors_of_NoDup|].
  split; [intros q; apply neighbors_of_adjacent|].
  unfold len. rewrite length_map, (neighbors_of_count _ _ _ Hn Hp).
  unfold is_corner, is_edge_non_corner, is_interior.
  destruct (on_rim (size b) (fst (i, j))), (on_rim (size b) (snd (i, j)));
    simpl; repeat split; intros; try discriminate; reflexivity.
Qed.

Lemma neighbor_data_count_witness :
  exists d,
    nearest_neighbor_data board_cats 1 0 = Ok d
    /\ NoDup (dict_keys d)
    /\ (forall q, In q (dict_keys d)
                  <-> in_grid (size board_cats) q = true
                      /\ adjacent (1, 0) q = true)
    /\ (is_corner (size board_cats) (1, 0) = true -> len d = 3)
    /\ (is_edge_non_corner (size board_cats) (1, 0) = true -> len d = 5)
    /\ (is_interior (size board_cats) (1, 0) = true -> len d = 8).
Proof.
  apply (neighbor_data_count board_cats 1 0);
    [reflexivity | simpl; lia | reflexivity].
Defined.

(** ** One step of the trace *)

Lemma scan_neighbor_data (b : BoggleBoard) (next : letter) (L : list pos) :
  let d := map (fun p => (p, cell b p)) L in
  let hit := find (fun q => letter_eqb (cell b q) next) L in
  existsb (letter_eqb next) (dict_values d)
  = match hit with Some _ => true | None => false end
  /\ find (fun it => letter_eqb (snd it) next) (dict_items d)
     = option_map (fun q => (q, cell b q)) hit.
Proof.
  induction L as [|p L [IH1 IH2]]; simpl; [auto|].
  unfold letter_eqb in *. rewrite (Ascii.eqb_sym next (cell b p)).
  destruct (Ascii.eqb (cell b p) next); simpl; auto.
Qed.

Lemma search_step (b : BoggleBoard) (i j : Z) (cur next : letter)
    (rest : list letter) :
  board_ok b = true -> in_grid (size b) (i, j) = true ->
  recursive_string_search b i j (cur :: next :: rest)
  = match first_match b (i, j) next with
    | None => (Ok (RBool false), next :: rest)
    | Some q =>
        match rest with
        | [] => (Ok (RBool true), [next])
        | _ :: _ => recursive_string_search b (fst q) (snd q) (next :: rest)
        end
    end.
Proof.
  intros Hb Hp. cbn [recursive_string_search].
  rewrite (nearest_neighbor_data_spec b i j Hb Hp).
  destruct (scan_neighbor_data b next (neighbors_of (size b) (i, j)))
    as [H1 H2].
  cbv zeta in H1, H2. rewrite H1, H2. unfold first_match.
  destruct (find _ (neighbors_of (size b) (i, j))) as [q|];
    cbn [option_map negb fst snd]; [|reflexivity].
  destruct rest as [|c rest]; [reflexivity|].
  replace (len (next :: c :: rest) =? 1) with false; [reflexivity|].
  symmetry. apply Z.eqb_neq. unfold len. cbn [List.length]. lia.
Qed.

(** C3: from an in-grid cell of a well-formed board the search looks for the
    next letter among the neighbors in the order left, right, up, down,
    up-left, up-right, down-left, down-right ([first_match]); with no match
    it answers [False], with one it commits to the first: [True] when that
    was the last letter, otherwise whatever the search from that neighbor
    answers.  On [board_dead_end] the word "abc" is traceable without
    repeating a cell, through the "b" to the right of the "a", and the search
    answers [False], having committed to the "b" on the left. *)
Theorem first_match_commits (b : BoggleBoard) (i j : Z) (cur next : letter)
    (rest : list letter) :
  board_ok b = true -> in_grid (size b) (i, j) = true ->
  recursive_string_search b i j (cur :: next :: rest)
  = match first_match b (i, j) next with
    | None => (Ok (RBool false), next :: rest)
    | Some q =>
        match rest with
        | [] => (Ok (RBool true), [next])
        | _ :: _ => recursive_string_search b (fst q) (snd q) (next :: rest)
        end
    end
  /\ compass
     = [ (0, -1); (0, 1); (-1, 0); (1, 0); (-1, -1); (-1, 1); (1, -1); (1, 1) ]
  /\ (is_trace board_dead_end [(1, 1); (1, 2); (2, 2)]
        (list_ascii_of_string "abc") = true
      /\ first_match board_dead_end (1, 1) "b"%char = Some (1, 0)
      /\ first_match board_dead_end (1, 0) "c"%char = None
      /\ first_match board_dead_end (1, 2) "c"%char = Some (2, 2)
      /\ positions_for_letter board_dead_end "a"%char = [(1, 1)]
      /\ check_word_on_board board_dead_end "abc" = Ok (RBool false)).
Proof.
  intros Hb Hp. split; [apply search_step; assumption|].
  split; [reflexivity|]. vm_compute. repeat split; reflexivity.
Qed.

Lemma first_match_commits_witness :
  recursive_string_search board_dead_end 1 1 (list_ascii_of_string "abc")
  = (Ok (RBool false), list_ascii_of_string "c").
Proof.
  destruct (first_match_commits board_dead_end 1 1 "a"%char "b"%char
              ["c"%char] eq_refl eq_refl) as [H _].
  exact (eq_trans H eq_refl).
Defined.

(** ** The occurrences of a letter *)

Lemma In_enumerate_from {A : Type} (l : list A) (k k' : Z) (a : A) :
  In (k', a) (enumerate_from k l)
  <-> k <= k' /\ nth_error l (Z.to_nat (k' - k)) = Some a.
Proof.
  revert k. induction l as [|x l IH]; intros k; simpl.
  - split; [tauto|]. intros [_ H]. destruct (Z.to_nat (k' - k)); discriminate.
  - rewrite IH. split.
    + intros [H|[Hk Hn]].
      * inversion H; subst. rewrite Z.sub_diag. simpl. split; [lia|auto].
      * split; [lia|].
        replace (Z.to_nat (k' - k)) with (S (Z.to_nat (k' - (k + 1)))) by lia.
        exact Hn.
    + intros [Hk Hn]. destruct (Z.eq_dec k' k) as [->|Hne].
      * rewrite Z.sub_diag in Hn. simpl in Hn. left. congruence.
      * right. split; [lia|].
        replace (Z.to_nat (k' - k)) with (S (Z.to_nat (k' - (k + 1)))) in Hn
          by lia.
        exact Hn.
Qed.

Lemma row_scan (i : Z) (l : letter) (row : list letter) :
  forall (k : Z) (acc : list pos),
    fold_left
      (fun position_tuples '(j, char) =>
         if letter_eqb char l then position_tuples ++ [(i, j)]
         else position_tuples)
      (enumerate_from k row) acc
    = acc ++ map (fun jc => (i, fst jc))
               (filter (fun jc => letter_eqb (snd jc) l)
                  (enumerate_from k row)).
Proof.
  induction row as [|c row IH]; intros k acc; simpl.
  - rewrite app_nil_r. reflexivity.
  - rewrite IH. destruct (letter_eqb c l); simpl.
    + rewrite <- app_assoc. reflexivity.
    + reflexivity.
Qed.

Lemma board_scan (l : letter) (rows : list (list letter)) :
  forall (k : Z) (acc : list pos),
    fold_left
      (fun position_tuples '(i, row) =>
         fold_left
           (fun position_tuples '(j, char) =>
              if letter_eqb char l then position_tuples ++ [(i, j)]
              else position_tuples)
           (enumerate row) position_tuples)
      (enumerate_from k rows) acc
    = acc ++ flat_map
               (fun ir => map (fun jc => (fst ir, fst jc))
                            (filter (fun jc => letter_eqb (snd jc) l)
                               (enumerate (snd ir))))
               (enumerate_from k rows).
Proof.
  induction rows as [|row rows IH]; intros k acc; simpl.
  - rewrite app_nil_r. reflexivity.
  - pose proof (row_scan k l row 0 acc) as Hr.
    change (enumerate_from 0 row) with (enumerate row) in Hr.
    rewrite IH, Hr, <- app_assoc. reflexivity.
Qed.

Lemma positions_for_letter_scan (b : BoggleBoard) (l : letter) :
  positions_for_letter b l
  = flat_map
      (fun ir => map (fun jc => (fst ir, fst jc))
                   (filter (fun jc => letter_eqb (snd jc) l)
                      (enumerate (snd ir))))
      (enumerate (board b)).
Proof. unfold positions_for_letter, enumerate at 2. apply board_scan. Qed.

Lemma In_positions_for_letter (b : BoggleBoard) (l : letter) (p : pos) :
  In p (positions_for_letter b l) <-> cell_at b p = Some l.
Proof.
  rewrite positions_for_letter_scan, in_flat_map. destruct p as [i j].
  unfold cell_at; cbn [fst snd]. split.
  - intros ([i' row] & Hrow & Hin). cbn [fst snd] in Hin.
    apply in_map_iff in Hin. destruct Hin as ([j' c] & Heq & Hin).
    cbn [fst] in Heq. inversion Heq; subst i' j'; clear Heq.
    apply filter_In in Hin. destruct Hin as [Hin Hc]. cbn [snd] in Hc.
    apply letter_eqb_eq in Hc. subst c.
    apply In_enumerate_from in Hrow, Hin.
    rewrite Z.sub_0_r in Hrow, Hin. destruct Hrow as [Hi Hrow], Hin as [Hj Hin].
    rewrite Hrow. decide_tests. exact Hin.
  - destruct (0 <=? i) eqn:Ei; [|discriminate].
    destruct (0 <=? j) eqn:Ej; [|discriminate]. cbn [andb].
    apply Z.leb_le in Ei, Ej.
    destruct (nth_error (board b) (Z.to_nat i)) as [row|] eqn:Er;
      [|discriminate].
    intros Hc. exists (i, row). split.
    + apply In_enumerate_from. rewrite Z.sub_0_r. auto.
    + cbn [fst snd]. apply in_map_iff. exists (j, l). split; [reflexivity|].
      apply filter_In. split.
      * apply In_enumerate_from. rewrite Z.sub_0_r. auto.
      * apply letter_eqb_eq. reflexivity.
Qed.

Lemma StronglySorted_app {A : Type} (R : A -> A -> Prop) (l1 l2 : list A) :
  StronglySorted R l1 -> StronglySorted R l2 ->
  (forall x y, In x l1 -> In y l2 -> R x y) ->
  StronglySorted R (l1 ++ l2).
Proof.
  induction l1 as [|a l1 IH]; simpl; intros H1 H2 H12; [assumption|].
  inversion H1 as [|? ? Hs Hf]; subst. constructor.
  - apply IH; auto.
  - apply Forall_app. split; [assumption|].
    apply Forall_forall. intros y Hy. apply H12; auto.
Qed.

Lemma row_hits_sorted (i : Z) (l : letter) (row : list letter) :
  forall k,
    StronglySorted pos_lt
      (map (fun jc : Z * letter => (i, fst jc))
         (filter (fun jc => letter_eqb (snd jc) l) (enumerate_from k row))).
Proof.
  induction row as [|c row IH]; intros k; simpl; [constructor|].
  destruct (letter_eqb c l); simpl; [|apply IH].
  constructor; [apply IH|].
  apply Forall_forall. intros [i' j'] Hin.
  apply in_map_iff in Hin. destruct Hin as ([j'' c'] & Heq & Hin).
  inversion Heq; subst. apply filter_In in Hin. destruct Hin as [Hin _].
  apply In_enumerate_from in Hin. right. simpl. lia.
Qed.

Lemma board_hits_sorted (l : letter) (rows : list (list letter)) :
  forall k,
    StronglySorted pos_lt
      (flat_map
         (fun ir : Z * list letter =>
            map (fun jc : Z * letter => (fst ir, fst jc))
              (filter (fun jc => letter_eqb (snd jc) l)
                 (enumerate (snd ir))))
         (enumerate_from k rows)).
Proof.
  induction rows as [|row rows IH]; intros k; simpl; [constructor|].
  apply StronglySorted_app; [apply row_hits_sorted | apply IH |].
  intros [i j] [i' j'] Hx Hy.
  apply in_map_iff in Hx. destruct Hx as (? & Heq & _). inversion Heq; subst.
  apply in_flat_map in Hy. destruct Hy as ([i'' row'] & Hrow & Hin).
  apply In_enumerate_from in Hrow.
  apply in_map_iff in Hin. destruct Hin as (? & Heq' & _).
  inversion Heq'; subst. left. simpl. lia.
Qed.

(** C9: [positions_for_letter] lists exactly the positions whose cell holds
    the letter, each once, in row-major order (rows ascending, columns
    ascending inside a row), and lists nothing when no cell holds it. *)
Theorem positions_for_letter_correct (b : BoggleBoard) (l : letter) :
  (forall p, In p (positions_for_letter b l) <-> cell_at b p = Some l)
  /\ StronglySorted pos_lt (positions_for_letter b l)
  /\ NoDup (positions_for_letter b l)
  /\ ((forall p, cell_at b p <> Some l) -> positions_for_letter b l = []).
Proof.
  assert (Hs : StronglySorted pos_lt (positions_for_letter b l)).
  { rewrite positions_for_letter_scan. apply board_hits_sorted. }
  split; [intros p; apply In_positions_for_letter|].
  split; [exact Hs|]. split.
  - induction Hs as [|p ps Hs IH Hf]; constructor; auto.
    intros Hin. rewrite Forall_forall in Hf. specialize (Hf p Hin).
    unfold pos_lt in Hf. lia.
  - intros Hno. destruct (positions_for_letter b l) as [|p ps] eqn:E;
      [reflexivity|].
    exfalso. apply (Hno p). apply In_positions_for_letter.
    rewrite E. left. reflexivity.
Qed.

(** ** The search returns a boolean on words of two letters or more *)

Lemma first_match_in_grid (b : BoggleBoard) (p q : pos) (l : letter) :
  first_match b p l = Some q -> in_grid (size b) q = true.
Proof.
  unfold first_match. intros H. apply find_some in H.
  eapply neighbors_of_in_grid. apply H.
Qed.

Lemma search_total (b : BoggleBoard) :
  board_ok b = true ->
  forall ll i j,
    in_grid (size b) (i, j) = true -> 2 <= len ll ->
    exists bo ll', recursive_string_search b i j ll = (Ok (RBool bo), ll').
Proof.
  intros Hb. induction ll as [|cur ll IH]; intros i j Hp Hlen.
  - unfold len in Hlen. simpl in Hlen. lia.
  - destruct ll as [|next rest].
    + unfold len in Hlen. simpl in Hlen. lia.
    + rewrite (search_step b i j cur next rest Hb Hp).
      destruct (first_match b (i, j) next) as [q|] eqn:Eq; [|eauto].
      destruct rest as [|c rest]; [eauto|].
      apply IH.
      * destruct q as [qi qj]. apply (first_match_in_grid _ _ _ _ Eq).
      * unfold len. cbn [List.length]. lia.
Qed.

Lemma one_letter_raises (b : BoggleBoard) (i j : Z) (c : letter) :
  recursive_string_search b i j [c] = (Raise IndexError, []).
Proof. reflexivity. Qed.

(** C2, amended: on a well-formed board a trace from an in-grid cell with a
    list of two letters or more returns [True] or [False] and raises
    nothing; [check_word_on_board] returns [True] or [False] for a word of
    two letters or more whose first letter is on the board at most once, and
    [False] when the first letter is not on the board; for a one-letter word
    whose letter is on the board it raises [IndexError]. *)
Theorem search_returns_bool (b : BoggleBoard) :
  board_ok b = true ->
  (forall i j ll,
      in_grid (size b) (i, j) = true -> 2 <= len ll ->
      exists bo ll', recursive_string_search b i j ll = (Ok (RBool bo), ll'))
  /\ (forall c w,
         w <> EmptyString -> len (positions_for_letter b c) <= 1 ->
         exists bo, check_word_on_board b (String c w) = Ok (RBool bo))
  /\ (forall c w,
         positions_for_letter b c = [] ->
         check_word_on_board b (String c w) = Ok (RBool false))
  /\ (forall c,
         positions_for_letter b c <> [] ->
         check_word_on_board b (String c EmptyString) = Raise IndexError).
Proof.
  intros Hb. split; [intros i j ll; apply search_total; assumption|].
  assert (Habsent : forall c w,
             positions_for_letter b c = [] ->
             check_word_on_board b (String c w) = Ok (RBool false)).
  { intros c w He. unfold check_word_on_board.
    cbn [list_ascii_of_string]. unfold py_index, len. cbn [List.length].
    decide_tests. cbn [andb Z.to_nat nth_error bind]. rewrite He. reflexivity. }
  split; [|split; [exact Habsent|]].
  - intros c w Hw Hone.
    destruct (positions_for_letter b c) as [|[pi pj] ps] eqn:Ep.
    { exists false. apply Habsent. exact Ep. }
    destruct ps as [|p' ps];
      [|unfold len in Hone; cbn [List.length] in Hone; lia].
    assert (Hp : in_grid (size b) (pi, pj) = true).
    { apply (cell_at_in_grid b _ c Hb). apply In_positions_for_letter.
      rewrite Ep. left. reflexivity. }
    destruct w as [|c' w]; [congruence|].
    destruct (search_total b Hb (list_ascii_of_string (String c (String c' w)))
                pi pj Hp) as (bo & ll' & Hs).
    { unfold len. cbn [list_ascii_of_string List.length]. lia. }
    exists bo. unfold check_word_on_board.
    cbn [list_ascii_of_string] in *. unfold py_index, len. cbn [List.length].
    decide_tests. cbn [andb Z.to_nat nth_error bind]. rewrite Ep.
    cbn [List.length]. decide_tests. cbn [negb start_loop].
    rewrite Hs. cbn [truthy]. destruct bo; reflexivity.
  - intros c Hne. unfold check_word_on_board.
    cbn [list_ascii_of_string]. unfold py_index, len. cbn [List.length].
    decide_tests. cbn [andb Z.to_nat nth_error bind].
    destruct (positions_for_letter b c) as [|[pi pj] ps]; [congruence|].
    cbn [List.length]. decide_tests. cbn [negb start_loop].
    rewrite one_letter_raises. reflexivity.
Qed.

Lemma search_returns_bool_witness :
  exists bo, check_word_on_board board_cats "cot" = Ok (RBool bo).
Proof.
  destruct (search_returns_bool board_cats eq_refl) as (_ & H & _).
  apply (H "c"%char "ot"%string).
  - discriminate.
  - vm_compute. discriminate.
Defined.

(** C2 as stated fails: "c" is a word of length 1 whose letter is on the
    board of the spec's scenarios, and the search raises [IndexError]. *)
Lemma one_letter_word_raises :
  BoggleBoard_init e_choice (Some (SizeInt 4)) (Some "catsoxxxxxxxxxxx"%string)
  = Ok board_cats
  /\ positions_for_letter board_cats "c"%char = [(0, 0)]
  /\ check_word_on_board board_cats "c" = Raise IndexError
  /\ ~ (exists v, check_word_on_board board_cats "c" = Ok v).
Proof.
  repeat split; try reflexivity. intros [v Hv]. vm_compute in Hv. discriminate.
Qed.

(** ** Several start positions *)

(** C1 fails on the code.  The board "cxx/xxx/cat" holds "c" at (0,0) and at
    (2,0).  A trace of "cat" from (2,0) succeeds, but the attempt from (0,0)
    has already popped the "c" from the one list the loop works on: the
    attempt from (2,0) is made with "at", finds no "t" next to (2,0), and
    [check_word_on_board] answers [False].  On "cxx/xxx/xxc" the second
    attempt for "ca" is made with the one-letter list "a" and raises. *)
Theorem shared_letter_list_loses_start :
  BoggleBoard_init e_choice (Some (SizeInt 3)) (Some "cxxxxxcat"%string)
  = Ok board_two_c
  /\ positions_for_letter board_two_c "c"%char = [(0, 0); (2, 0)]
  /\ recursive_string_search board_two_c 0 0 (list_ascii_of_string "cat")
     = (Ok (RBool false), list_ascii_of_string "at")
  /\ recursive_string_search board_two_c 2 0 (list_ascii_of_string "cat")
     = (Ok (RBool true), list_ascii_of_string "t")
  /\ is_trace board_two_c [(2, 0); (2, 1); (2, 2)]
       (list_ascii_of_string "cat") = true
  /\ recursive_string_search board_two_c 2 0 (list_ascii_of_string "at")
     = (Ok (RBool false), list_ascii_of_string "t")
  /\ check_word_on_board board_two_c "cat" = Ok (RBool false)
  /\ check_word_on_board
       (mkBoard 3 (list_ascii_of_string "cxxxxxxxc")
          [ list_ascii_of_string "cxx"; list_ascii_of_string "xxx";
            list_ascii_of_string "xxc" ])
       "ca"
     = Raise IndexError.
Proof. vm_compute. repeat split; reflexivity. Qed.

(** ** The scenarios of the spec *)

(** C6: on the 4 x 4 board "cats/oxxx/xxxx/xxxx" the search answers [True]
    for "cat", going (0,0), (0,1), (0,2), [True] for "cats", going on to
    (0,3), and [False] for "cot": the only "o" is at (1,0), the only "t" at
    (0,2), and the two do not touch. *)
Theorem cats_board_scenarios :
  BoggleBoard_init e_choice (Some (SizeInt 4)) (Some "catsoxxxxxxxxxxx"%string)
  = Ok board_cats
  /\ (check_word_on_board board_cats "cat" = Ok (RBool true)
      /\ positions_for_letter board_cats "c"%char = [(0, 0)]
      /\ first_match board_cats (0, 0) "a"%char = Some (0, 1)
      /\ first_match board_cats (0, 1) "t"%char = Some (0, 2)
      /\ is_trace board_cats [(0, 0); (0, 1); (0, 2)]
           (list_ascii_of_string "cat") = true)
  /\ (check_word_on_board board_cats "cats" = Ok (RBool true)
      /\ first_match board_cats (0, 2) "s"%char = Some (0, 3)
      /\ is_trace board_cats [(0, 0); (0, 1); (0, 2); (0, 3)]
           (list_ascii_of_string "cats") = true)
  /\ (check_word_on_board board_cats "cot" = Ok (RBool false)
      /\ positions_for_letter board_cats "o"%char = [(1, 0)]
      /\ positions_for_letter board_cats "t"%char = [(0, 2)]
      /\ adjacent (1, 0) (0, 2) = false
      /\ first_match board_cats (0, 0) "o"%char = Some (1, 0)
      /\ first_match board_cats (1, 0) "t"%char = None).
Proof. vm_compute. repeat split; reflexivity. Qed.

(** ** No record of visited cells *)

Lemma is_trace_head (b : BoggleBoard) (p : pos) (path : list pos)
    (c : letter) (w : list letter) :
  is_trace b (p :: path) (c :: w) = true ->
  In p (positions_for_letter b c) /\ is_trace b path w = true.
Proof.
  cbn [is_trace]. rewrite !andb_true_iff. intros [[Hc _] Ht].
  split; [|exact Ht]. apply In_positions_for_letter.
  destruct (cell_at b p) as [c'|]; [|discriminate].
  apply letter_eqb_eq in Hc. congruence.
Qed.

(** C8: on the 2 x 2 board "ab/xx" the search answers [True] for "aba";
    the board has one "a", so every trace of "aba" stands on the cell (0,0)
    twice: none is free of repeated cells. *)
Theorem search_revisits_a_cell :
  exists (b : BoggleBoard) (w : string),
    BoggleBoard_init e_choice (Some (SizeInt 2)) (Some "abxx"%string) = Ok b
    /\ check_word_on_board b w = Ok (RBool true)
    /\ is_trace b [(0, 0); (0, 1); (0, 0)] (list_ascii_of_string w) = true
    /\ forall path,
         is_trace b path (list_ascii_of_string w) = true -> ~ NoDup path.
Proof.
  exists board_ab, "aba"%string.
  split; [reflexivity|]. split; [reflexivity|]. split; [reflexivity|].
  intros path Ht Hnd. cbn [list_ascii_of_string] in Ht.
  destruct path as [|p0 path]; [discriminate|].
  apply is_trace_head in Ht. destruct Ht as [H0 Ht].
  destruct path as [|p1 path]; [discriminate|].
  apply is_trace_head in Ht. destruct Ht as [_ Ht].
  destruct path as [|p2 path]; [discriminate|].
  apply is_trace_head in Ht. destruct Ht as [H2 _].
  assert (Ha : positions_for_letter board_ab "a"%char = [(0, 0)])
    by reflexivity.
  rewrite Ha in H0, H2.
  destruct H0 as [H0|[]], H2 as [H2|[]]. subst p0 p2.
  inversion Hnd as [|? ? Hnot _]; subst. apply Hnot. right. left. reflexivity.
Qed.

(** ** nearest_neighbor_letters *)

(** C10: [nearest_neighbor_letters] raises [AttributeError] for every board
    and every pair of indices: [values] is looked up on the bound method. *)
Theorem nearest_neighbor_letters_raises (b : BoggleBoard) (i_row j_col : Z) :
  nearest_neighbor_letters b i_row j_col = Raise AttributeError.
Proof. reflexivity. Qed.

(** ** Construction of a board *)

Lemma isalpha_spec (s : string) :
  isalpha s = true
  <-> s <> EmptyString
      /\ existsb (fun c => negb (char_isalpha c)) (list_ascii_of_string s)
         = false.
Proof.
  assert (H : forall cs,
             forallb char_isalpha cs = true
             <-> existsb (fun c => negb (char_isalpha c)) cs = false).
  { induction cs as [|c cs IH]; simpl; [tauto|].
    rewrite andb_true_iff, orb_false_iff, negb_false_iff, IH. tauto. }
  unfold isalpha. destruct s as [|c s]; cbn [list_ascii_of_string].
  - split; [discriminate|]. intros [Hne _]. congruence.
  - rewrite H. split; [intros; split; [discriminate|assumption]|tauto].
Qed.

Lemma firstn_plus {A : Type} (a b : nat) (l : list A) :
  firstn (a + b) l = firstn a l ++ firstn b (skipn a l).
Proof.
  revert l. induction a as [|a IH]; intros l; simpl; [reflexivity|].
  destruct l as [|x l]; simpl.
  - rewrite firstn_nil. reflexivity.
  - rewrite IH. reflexivity.
Qed.

Lemma chunks_concat {A : Type} (m : nat) (l : list A) :
  forall k s,
    List.concat (map (fun t => firstn m (skipn (t * m) l)) (seq s k))
    = firstn (k * m) (skipn (s * m) l).
Proof.
  induction k as [|k IH]; intros s; simpl; [reflexivity|].
  rewrite IH, firstn_plus, skipn_skipn. reflexivity.
Qed.

Lemma range_count_square (n : Z) : 1 <= n -> range_count 0 (n * n) n = n.
Proof.
  intros Hn. unfold range_count. decide_tests.
  symmetry. apply Z.div_unique with (r := n - 1); lia.
Qed.

Lemma py_slice_chunk (n : Z) (ll : list letter) (t : nat) :
  1 <= n -> len ll = n * n -> (t < Z.to_nat n)%nat ->
  py_slice ll (0 + Z.of_nat t * n) (0 + Z.of_nat t * n + n)
  = firstn (Z.to_nat n) (skipn (t * Z.to_nat n) ll).
Proof.
  intros Hn Hlen Ht. unfold py_slice, clamp_index. rewrite Hlen.
  assert (0 <= Z.of_nat t * n) by nia.
  assert (Z.of_nat t * n + n <= n * n) by nia.
  decide_tests. rewrite !Z.min_l by lia.
  f_equal; [lia|]. f_equal. nia.
Qed.

Lemma build_board_square (n : Z) (ll : list letter) :
  1 <= n -> len ll = n * n ->
  exists rows,
    build_board n ll = Ok rows
    /\ len rows = n
    /\ (forall row, In row rows -> len row = n)
    /\ List.concat rows = ll.
Proof.
  intros Hn Hlen. unfold build_board, py_range. rewrite Hlen.
  decide_tests. rewrite (range_count_square n Hn). cbn [bind].
  eexists. split; [reflexivity|]. rewrite map_map.
  rewrite (map_ext_in _ (fun t => firstn (Z.to_nat n)
                                   (skipn (t * Z.to_nat n) ll))).
  2:{ intros t Ht. apply in_seq in Ht.
      apply py_slice_chunk; auto. lia. }
  assert (Hl : List.length ll = (Z.to_nat n * Z.to_nat n)%nat)
    by (unfold len in Hlen; nia).
  split; [|split].
  - unfold len. rewrite length_map, length_seq. lia.
  - intros row Hrow. apply in_map_iff in Hrow.
    destruct Hrow as (t & <- & Ht). apply in_seq in Ht.
    unfold len. rewrite firstn_length_le; [lia|].
    rewrite length_skipn. nia.
  - rewrite chunks_concat. simpl skipn. apply firstn_all2. lia.
Qed.

Lemma init_size_step (kw_size : option size_arg) (n : Z) :
  effective_size kw_size = Some n ->
  match kw_size with
  | None => Ok 5
  | Some (SizeInt k) => Ok k
  | Some SizeOther => Raise InitError
  end = Ok n.
Proof.
  destruct kw_size as [[k|]|]; simpl; intros H; congruence.
Qed.

(** C5, amended to sizes of at least 1: with letters supplied and a size
    [n >= 1] (given, or the default 5), [__init__] raises [InitError]
    exactly when a character is not alphabetic or the number of letters is
    not [n * n], and otherwise returns a board of size [n] with [n] rows of
    [n] letters that read, row after row, as the supplied letters; an error
    produces no board; a [size] that is not an [int] raises [InitError]. *)
Theorem board_construction (choice : nat -> letter)
    (kw_size : option size_arg) (kw_letters : option string)
    (letters : string) (n : Z) :
  effective_size kw_size = Some n -> 1 <= n ->
  let bad :=
    existsb (fun c => negb (char_isalpha c)) (list_ascii_of_string letters)
    = true
    \/ len (list_ascii_of_string letters) <> n * n in
  (BoggleBoard_init choice kw_size (Some letters) = Raise InitError <-> bad)
  /\ (bad -> forall b, BoggleBoard_init choice kw_size (Some letters) <> Ok b)
  /\ (~ bad ->
      exists b,
        BoggleBoard_init choice kw_size (Some letters) = Ok b
        /\ size b = n
        /\ letter_list b = list_ascii_of_string letters
        /\ len (board b) = n
        /\ (forall row, In row (board b) -> len row = n)
        /\ List.concat (board b) = list_ascii_of_string letters
        /\ board_ok b = true)
  /\ BoggleBoard_init choice (Some SizeOther) kw_letters = Raise InitError.
Proof.
  intros Hsz Hn bad.
  assert (Hbad : bad -> BoggleBoard_init choice kw_size (Some letters)
                        = Raise InitError).
  { intros Hb. unfold BoggleBoard_init. rewrite (init_size_step _ _ Hsz).
    cbn [bind]. destruct (isalpha letters) eqn:Ea; [|reflexivity].
    cbn [negb]. apply isalpha_spec in Ea. destruct Ea as [_ Ea].
    destruct Hb as [Hb|Hb]; [congruence|].
    apply Z.eqb_neq in Hb. rewrite Hb. reflexivity. }
  assert (Hgood : ~ bad ->
            exists b,
              BoggleBoard_init choice kw_size (Some letters) = Ok b
              /\ size b = n
              /\ letter_list b = list_ascii_of_string letters
              /\ len (board b) = n
              /\ (forall row, In row (board b) -> len row = n)
              /\ List.concat (board b) = list_ascii_of_string letters
              /\ board_ok b = true).
  { intros Hb. unfold bad in Hb.
    assert (Ha : existsb (fun c => negb (char_isalpha c))
                   (list_ascii_of_string letters) = false).
    { destruct (existsb _ _); [exfalso; apply Hb; auto|reflexivity]. }
    assert (Hl : len (list_ascii_of_string letters) = n * n).
    { destruct (Z.eq_dec (len (list_ascii_of_string letters)) (n * n));
        [assumption|exfalso; apply Hb; auto]. }
    assert (Hne : letters <> EmptyString).
    { intros ->. unfold len in Hl. simpl in Hl. nia. }
    assert (Hal : isalpha letters = true) by (apply isalpha_spec; auto).
    destruct (build_board_square n _ Hn Hl) as (rows & Hrows & H1 & H2 & H3).
    exists (mkBoard n (list_ascii_of_string letters) rows).
    unfold BoggleBoard_init. rewrite (init_size_step _ _ Hsz). cbn [bind].
    rewrite Hal. cbn [negb]. apply Z.eqb_eq in Hl. rewrite Hl. cbn [negb bind].
    assert (Hll : build_letter_list choice n (Some letters)
                  = list_ascii_of_string letters).
    { destruct letters; [congruence|reflexivity]. }
    rewrite Hll, Hrows. cbn [bind size letter_list board].
    repeat split; auto.
    unfold board_ok; cbn [size board]. rewrite !andb_true_iff. repeat split.
    - apply Z.leb_le; lia.
    - apply Z.eqb_eq; assumption.
    - apply forallb_forall. intros row Hrow. apply Z.eqb_eq. auto. }
  split; [split; [|exact Hbad]|split; [|split; [exact Hgood|reflexivity]]].
  - intros Hr.
    destruct (existsb (fun c => negb (char_isalpha c))
                (list_ascii_of_string letters)) eqn:Ea;
      [left; reflexivity|].
    destruct (Z.eq_dec (len (list_ascii_of_string letters)) (n * n)) as [El|El];
      [|right; exact El].
    exfalso. destruct Hgood as (b & Hb & _).
    + intros [H|H]; [congruence|contradiction].
    + congruence.
  - intros Hb b Hok. rewrite (Hbad Hb) in Hok. discriminate.
Qed.

Lemma board_construction_witness :
  exists b,
    BoggleBoard_init e_choice (Some (SizeInt 2)) (Some "abxx"%string) = Ok b
    /\ size b = 2
    /\ letter_list b = list_ascii_of_string "abxx"
    /\ len (board b) = 2
    /\ (forall row, In row (board b) -> len row = 2)
    /\ List.concat (board b) = list_ascii_of_string "abxx"
    /\ board_ok b = true.
Proof.
  destruct (board_construction e_choice (Some (SizeInt 2)) None "abxx"%string 2
              eq_refl ltac:(lia)) as (_ & _ & H & _).
  apply H. intros [Hbad|Hbad].
  - vm_compute in Hbad. discriminate.
  - apply Hbad. reflexivity.
Defined.

(** C5 as stated fails.  With [size = -2] the four letters "abcd" pass both
    checks (4 = (-2) * (-2)) and the board built has no rows at all; with
    [size = 0] the empty string has no character that is not alphabetic and
    has length 0 = 0 * 0, and [InitError] is raised all the same. *)
Lemma construction_outside_positive_sizes :
  (isalpha "abcd" = true
   /\ len (list_ascii_of_string "abcd") = (-2) * (-2)
   /\ BoggleBoard_init e_choice (Some (SizeInt (-2))) (Some "abcd"%string)
      = Ok (mkBoard (-2) (list_ascii_of_string "abcd") [])
   /\ len (@nil (list letter)) <> -2)
  /\ (existsb (fun c => negb (char_isalpha c)) (list_ascii_of_string EmptyString)
      = false
      /\ len (list_ascii_of_string EmptyString) = 0 * 0
      /\ BoggleBoard_init e_choice (Some (SizeInt 0)) (Some EmptyString)
         = Raise InitError).
Proof. vm_compute. repeat split; try reflexivity. discriminate. Qed.

(** * Further properties of the search *)

Lemma search_unfold (b : BoggleBoard) (i j : Z) (cur next : letter)
    (rest : list letter) :
  recursive_string_search b i j (cur :: next :: rest)
  = match nearest_neighbor_data b i j with
    | Raise e => (Raise e, next :: rest)
    | Ok nn_data =>
        if negb (existsb (letter_eqb next) (dict_values nn_data)) then
          (Ok (RBool false), next :: rest)
        else
          match find (fun it => letter_eqb (snd it) next)
                     (dict_items nn_data) with
          | Some (t_pos, _) =>
              if len (next :: rest) =? 1 then (Ok (RBool true), next :: rest)
              else recursive_string_search b (fst t_pos) (snd t_pos)
                     (next :: rest)
          | None => (Ok RNone, next :: rest)
          end
    end.
Proof. reflexivity. Qed.

Lemma py_index_raises {A : Type} (l : list A) (i : Z) (e : exn) :
  py_index l i = Raise e -> e = IndexError.
Proof.
  unfold py_index.
  destruct ((0 <=? _) && (_ <? len l)); [|congruence].
  destruct (nth_error l _); congruence.
Qed.

Lemma nn_loop_raises (b : BoggleBoard) (vals : list (option pos)) :
  forall acc e, nn_loop b vals acc = Raise e -> e = IndexError.
Proof.
  induction vals as [|[p|] vals IH]; simpl; intros acc e H.
  - discriminate.
  - unfold get_letter_at_position in H.
    destruct (py_index (board b) (fst p)) as [row|e1] eqn:E1; simpl in H.
    + destruct (py_index row (snd p)) as [c|e2] eqn:E2; simpl in H.
      * eauto.
      * inversion H; subst. eapply py_index_raises; eauto.
    + inversion H; subst. eapply py_index_raises; eauto.
  - eauto.
Qed.

Lemma member_found (next : letter) (d : dict letter) :
  existsb (letter_eqb next) (dict_values d) = true ->
  exists q c, find (fun it => letter_eqb (snd it) next) (dict_items d)
              = Some (q, c).
Proof.
  unfold dict_values, dict_items, letter_eqb.
  induction d as [|[q c] d IH]; simpl; [discriminate|].
  rewrite (Ascii.eqb_sym next c). destruct (Ascii.eqb c next); simpl; eauto.
Qed.

Lemma search_outcome_aux (b : BoggleBoard) (ll : list letter) :
  forall i j r ll',
    recursive_string_search b i j ll = (r, ll') ->
    (r = Ok (RBool true) \/ r = Ok (RBool false) \/ r = Raise IndexError)
    /\ (exists pre, ll = pre ++ ll' /\ (ll <> [] -> pre <> []))
    /\ (r = Ok (RBool true) -> List.length ll' = 1%nat)
    /\ (r = Ok (RBool false) -> ll' <> []).
Proof.
  induction ll as [|cur tl IH]; intros i j r ll' H.
  - simpl in H. inversion H; subst. repeat split; auto; try discriminate.
    exists []. auto.
  - destruct tl as [|next rest].
    + simpl in H. inversion H; subst. repeat split; auto; try discriminate.
      exists [cur]. split; [reflexivity|discriminate].
    + rewrite search_unfold in H.
      assert (Hpre : exists pre,
                 cur :: next :: rest = pre ++ next :: rest
                 /\ (cur :: next :: rest <> [] -> pre <> [])).
      { exists [cur]. split; [reflexivity|discriminate]. }
      destruct (nearest_neighbor_data b i j) as [d|e] eqn:Ed.
      * destruct (existsb (letter_eqb next) (dict_values d)) eqn:Ex;
          cbn [negb] in H.
        -- destruct (member_found _ _ Ex) as (q & c & Hf). rewrite Hf in H.
           destruct (len (next :: rest) =? 1) eqn:El.
           ++ inversion H; subst. repeat split; auto; try discriminate.
              intros _. apply Z.eqb_eq in El. unfold len in El. lia.
           ++ destruct (IH _ _ _ _ H) as (Hr & (pre & Hp & Hne) & Ht & Hf').
              repeat split; auto.
              exists (cur :: pre). split; [simpl; congruence|discriminate].
        -- inversion H; subst. repeat split; auto; discriminate.
      * inversion H; subst. unfold nearest_neighbor_data in Ed.
        apply nn_loop_raises in Ed. subst.
        repeat split; auto; discriminate.
Qed.

(** X1: whatever the board and the position, a trace attempt answers
    [True] or [False] or raises [IndexError], never [None] and no other
    exception; it pops at least one letter off a non-empty list and leaves a
    suffix of it: exactly the last letter after [True], at least one letter
    after [False]. *)
Theorem search_outcome (b : BoggleBoard) (i j : Z) (ll : list letter) :
  let r := fst (recursive_string_search b i j ll) in
  let ll' := snd (recursive_string_search b i j ll) in
  (r = Ok (RBool true) \/ r = Ok (RBool false) \/ r = Raise IndexError)
  /\ (exists pre, ll = pre ++ ll' /\ (ll <> [] -> pre <> []))
  /\ (r = Ok (RBool true) -> ll' = [last ll zero])
  /\ (r = Ok (RBool false) -> ll' <> []).
Proof.
  cbv zeta.
  destruct (recursive_string_search b i j ll) as [r ll'] eqn:E. cbn [fst snd].
  destruct (search_outcome_aux b ll i j r ll' E)
    as (Hr & (pre & Hp & Hne) & Ht & Hf).
  repeat split; eauto.
  intros Hr'. specialize (Ht Hr').
  destruct ll' as [|x [|y l]]; try discriminate.
  rewrite Hp, last_last. reflexivity.
Qed.

Lemma trace_sound_aux (b : BoggleBoard) :
  board_ok b = true ->
  forall rest cur i j ll',
    in_grid (size b) (i, j) = true ->
    recursive_string_search b i j (cur :: rest) = (Ok (RBool true), ll') ->
    exists path,
      is_trace b ((i, j) :: path) (cell b (i, j) :: rest) = true.
Proof.
  intros Hb. induction rest as [|next rest IH]; intros cur i j ll' Hp H.
  - simpl in H. discriminate.
  - rewrite (search_step b i j cur next rest Hb Hp) in H.
    destruct (first_match b (i, j) next) as [q|] eqn:Eq; [|discriminate].
    pose proof (first_match_in_grid _ _ _ _ Eq) as Hq.
    unfold first_match in Eq. apply find_some in Eq. destruct Eq as [Hin Hl].
    apply neighbors_of_adjacent in Hin. destruct Hin as [_ Hadj].
    apply letter_eqb_eq in Hl.
    destruct (get_letter_in_grid b (i, j) Hb Hp) as [_ Hc].
    destruct (get_letter_in_grid b q Hb Hq) as [_ Hcq].
    assert (Hrefl : forall c, letter_eqb c c = true)
      by (intros c; apply letter_eqb_eq; reflexivity).
    destruct rest as [|c rest].
    + exists [q]. cbn [is_trace]. rewrite Hc, Hcq, Hl, Hadj, !Hrefl.
      reflexivity.
    + destruct q as [qi qj]. cbn [fst snd] in H.
      destruct (IH next qi qj ll' Hq H) as (path & Hpath).
      exists ((qi, qj) :: path). rewrite Hl in Hpath.
      change (is_trace b ((i, j) :: (qi, qj) :: path)
                (cell b (i, j) :: next :: c :: rest))
        with (match cell_at b (i, j) with
              | Some c' => letter_eqb c' (cell b (i, j))
              | None => false
              end
              && adjacent (i, j) (qi, qj)
              && is_trace b ((qi, qj) :: path) (next :: c :: rest)).
      rewrite Hc, Hadj, Hrefl, Hpath. reflexivity.
Qed.

(** X2: on a well-formed board, when a trace attempt from an in-grid cell
    that holds the first letter answers [True], the word has a trace that
    starts at that cell: cells holding its letters in order, each touching
    the one before. *)
Theorem trace_sound (b : BoggleBoard) (i j : Z) (cur : letter)
    (rest ll' : list letter) :
  board_ok b = true ->
  cell_at b (i, j) = Some cur ->
  recursive_string_search b i j (cur :: rest) = (Ok (RBool true), ll') ->
  exists path, is_trace b ((i, j) :: path) (cur :: rest) = true.
Proof.
  intros Hb Hc H.
  pose proof (cell_at_in_grid b _ _ Hb Hc) as Hp.
  destruct (trace_sound_aux b Hb rest cur i j ll' Hp H) as (path & Hpath).
  exists path. unfold cell in Hpath. rewrite Hc in Hpath. exact Hpath.
Qed.

Lemma trace_sound_witness :
  exists path,
    is_trace board_cats ((0, 0) :: path) (list_ascii_of_string "cats") = true.
Proof.
  apply (trace_sound board_cats 0 0 "c"%char (list_ascii_of_string "ats")
           (list_ascii_of_string "s"));
    reflexivity.
Defined.

Lemma check_unfold (b : BoggleBoard) (c : letter) (w : string) :
  check_word_on_board b (String c w)
  = match positions_for_letter b c with
    | [] => Ok (RBool false)
    | p :: ps =>
        fst (start_loop b (p :: ps) (RBool false)
               (c :: list_ascii_of_string w))
    end.
Proof.
  unfold check_word_on_board.
  cbn [list_ascii_of_string]. unfold py_index, len. cbn [List.length].
  decide_tests. cbn [andb Z.to_nat nth_error bind].
  destruct (positions_for_letter b c) as [|p ps]; [reflexivity|].
  cbn [List.length]. decide_tests. reflexivity.
Qed.

Lemma start_in_grid (b : BoggleBoard) (c : letter) (p : pos) :
  board_ok b = true -> In p (positions_for_letter b c) ->
  in_grid (size b) p = true /\ cell_at b p = Some c.
Proof.
  intros Hb Hin. apply In_positions_for_letter in Hin.
  split; [eapply cell_at_in_grid; eauto|assumption].
Qed.

(** X3: on a well-formed board a two-letter word is decided at the first
    occurrence of its first letter alone: [True] when a neighbor of that
    cell holds the second letter; otherwise [False] when the first letter is
    nowhere else on the board, and [IndexError] when it is.  With no
    occurrence at all the answer is [False]. *)
Theorem two_letter_word (b : BoggleBoard) (c1 c2 : letter) :
  board_ok b = true ->
  check_word_on_board b (String c1 (String c2 EmptyString))
  = match positions_for_letter b c1 with
    | [] => Ok (RBool false)
    | p :: others =>
        match first_match b p c2 with
        | Some _ => Ok (RBool true)
        | None =>
            match others with
            | [] => Ok (RBool false)
            | _ :: _ => Raise IndexError
            end
        end
    end.
Proof.
  intros Hb. rewrite check_unfold.
  destruct (positions_for_letter b c1) as [|[pi pj] ps] eqn:Ep; [reflexivity|].
  destruct (start_in_grid b c1 (pi, pj) Hb) as [Hp _];
    [rewrite Ep; left; reflexivity|].
  cbn [list_ascii_of_string start_loop].
  pose proof (search_step b pi pj c1 c2 [] Hb Hp) as Hs.
  unfold letter in Hs |- *. rewrite Hs.
  destruct (first_match b (pi, pj) c2); [reflexivity|].
  cbn [truthy]. destruct ps as [|[qi qj] ps]; reflexivity.
Qed.

Lemma two_letter_word_witness :
  check_word_on_board board_cats "ca"
  = match positions_for_letter board_cats "c"%char with
    | [] => Ok (RBool false)
    | p :: others =>
        match first_match board_cats p "a"%char with
        | Some _ => Ok (RBool true)
        | None =>
            match others with
            | [] => Ok (RBool false)
            | _ :: _ => Raise IndexError
            end
        end
    end.
Proof. apply (two_letter_word board_cats "c"%char "a"%char). reflexivity. Defined.

Lemma start_loop_never_false (b : BoggleBoard) (starts : list pos) :
  forall ll status r ll',
    (1 <= List.length ll <= List.length starts)%nat ->
    start_loop b starts status ll = (r, ll') ->
    r = Ok (RBool true) \/ r = Raise IndexError.
Proof.
  induction starts as [|[i j] starts IH]; intros ll status r ll' Hlen H.
  - simpl in Hlen. lia.
  - cbn [start_loop] in H.
    destruct (recursive_string_search b i j ll) as [r0 l0] eqn:E.
    destruct (search_outcome_aux b ll i j r0 l0 E)
      as (Hr & (pre & Hp & Hne) & _ & Hf).
    destruct Hr as [->|[->| ->]].
    + cbn [truthy] in H. inversion H; auto.
    + cbn [truthy] in H. apply (IH l0 _ _ _) in H; [assumption|].
      assert (ll <> []) by (destruct ll; [simpl in Hlen; lia|discriminate]).
      specialize (Hne H0). specialize (Hf eq_refl).
      assert (Hl : List.length ll = (List.length pre + List.length l0)%nat)
        by (rewrite Hp at 1; apply length_app).
      destruct pre; [congruence|]. destruct l0; [congruence|].
      simpl in Hl, Hlen |- *. lia.
    + inversion H; auto.
Qed.

(** X4: on any board, when the first letter of a word occurs on the board
    at least as many times as the word has letters, [check_word_on_board]
    cannot answer [False]: it answers [True] or raises [IndexError].
    Every failed start takes at least one letter off the shared list. *)
Theorem many_starts_never_false (b : BoggleBoard) (c : letter) (w : string) :
  len (list_ascii_of_string (String c w)) <= len (positions_for_letter b c) ->
  check_word_on_board b (String c w) = Ok (RBool true)
  \/ check_word_on_board b (String c w) = Raise IndexError.
Proof.
  intros Hlen. rewrite check_unfold.
  destruct (positions_for_letter b c) as [|p ps] eqn:Ep.
  - unfold len in Hlen. simpl in Hlen. lia.
  - destruct (start_loop b (p :: ps) (RBool false)
                (c :: list_ascii_of_string w)) as [r ll'] eqn:E.
    cbn [fst]. eapply start_loop_never_false; [|exact E].
    unfold len in Hlen. cbn [list_ascii_of_string] in Hlen.
    cbn [List.length] in *. unfold letter in *. lia.
Qed.

Lemma many_starts_never_false_witness :
  check_word_on_board board_two_c "cx" = Ok (RBool true)
  \/ check_word_on_board board_two_c "cx" = Raise IndexError.
Proof.
  apply (many_starts_never_false board_two_c "c"%char "x"%string).
  vm_compute. discriminate.
Defined.

(** X5: on a well-formed board, a three-letter word whose first letter has
    a first occurrence with no neighbor holding the second letter and a
    second occurrence with a neighbor holding the third letter is answered
    [True], whether or not the second letter is anywhere on the board: the
    second attempt runs on the list the first one left. *)
Theorem second_start_skips_a_letter (b : BoggleBoard) (c1 c2 c3 : letter)
    (p1 p2 q : pos) (others : list pos) :
  board_ok b = true ->
  positions_for_letter b c1 = p1 :: p2 :: others ->
  first_match b p1 c2 = None ->
  first_match b p2 c3 = Some q ->
  check_word_on_board b (String c1 (String c2 (String c3 EmptyString)))
  = Ok (RBool true).
Proof.
  intros Hb Ep H1 H2. rewrite check_unfold, Ep.
  destruct p1 as [i1 j1], p2 as [i2 j2].
  destruct (start_in_grid b c1 (i1, j1) Hb) as [Hp1 _];
    [rewrite Ep; left; reflexivity|].
  destruct (start_in_grid b c1 (i2, j2) Hb) as [Hp2 _];
    [rewrite Ep; right; left; reflexivity|].
  cbn [list_ascii_of_string start_loop].
  pose proof (search_step b i1 j1 c1 c2 [c3] Hb Hp1) as Hs1.
  pose proof (search_step b i2 j2 c2 c3 [] Hb Hp2) as Hs2.
  unfold letter in Hs1, Hs2 |- *.
  rewrite Hs1, H1. cbn [truthy]. rewrite Hs2, H2. reflexivity.
Qed.

Lemma second_start_skips_a_letter_witness :
  positions_for_letter
    (mkBoard 3 (list_ascii_of_string "cxxxxxctx")
       [ list_ascii_of_string "cxx"; list_ascii_of_string "xxx";
         list_ascii_of_string "ctx" ]) "a"%char = []
  /\ check_word_on_board
       (mkBoard 3 (list_ascii_of_string "cxxxxxctx")
          [ list_ascii_of_string "cxx"; list_ascii_of_string "xxx";
            list_ascii_of_string "ctx" ]) "cat"
     = Ok (RBool true).
Proof.
  split; [reflexivity|].
  apply (second_start_skips_a_letter _ "c"%char "a"%char "t"%char
           (0, 0) (2, 0) (2, 1) []);
    reflexivity.
Defined.

(** X6: on a well-formed board, when the first letter of the word occurs
    exactly once and [check_word_on_board] answers [True], the word has a
    trace that starts at that occurrence. *)
Theorem single_start_sound (b : BoggleBoard) (c : letter) (w : string)
    (p : pos) :
  board_ok b = true ->
  positions_for_letter b c = [p] ->
  check_word_on_board b (String c w) = Ok (RBool true) ->
  exists path,
    is_trace b (p :: path) (list_ascii_of_string (String c w)) = true.
Proof.
  intros Hb Ep H. rewrite check_unfold, Ep in H.
  destruct p as [i j].
  destruct (start_in_grid b c (i, j) Hb) as [Hp Hc];
    [rewrite Ep; left; reflexivity|].
  cbn [start_loop] in H.
  destruct (recursive_string_search b i j (c :: list_ascii_of_string w))
    as [r ll'] eqn:E.
  destruct r as [[[|]|]|e]; cbn [truthy fst] in H; try discriminate.
  destruct (trace_sound_aux b Hb _ c i j ll' Hp E) as (path & Hpath).
  exists path. unfold cell in Hpath. rewrite Hc in Hpath. exact Hpath.
Qed.

Lemma single_start_sound_witness :
  exists path,
    is_trace board_cats ((0, 0) :: path) (list_ascii_of_string "cat") = true.
Proof.
  apply (single_start_sound board_cats "c"%char "at"%string (0, 0));
    reflexivity.
Defined.

(** * Further properties of the board *)

Lemma py_index_wrap {A : Type} (l : list A) (i : Z) :
  - len l <= i < len l ->
  exists a, py_index l i = Ok a
            /\ nth_error l (Z.to_nat (i mod len l)) = Some a.
Proof.
  intros Hi. unfold py_index.
  assert (Hmod : (if i <? 0 then i + len l else i) = i mod len l).
  { destruct (Z.ltb_spec i 0).
    - apply Z.mod_unique with (q := -1); lia.
    - symmetry. apply Z.mod_small. lia. }
  rewrite Hmod.
  assert (Hb : 0 <= i mod len l < len l) by (apply Z.mod_pos_bound; lia).
  replace (0 <=? i mod len l) with true by (symmetry; apply Z.leb_le; lia).
  replace (i mod len l <? len l) with true by (symmetry; apply Z.ltb_lt; lia).
  simpl. destruct (nth_error l (Z.to_nat (i mod len l))) as [a|] eqn:E.
  - eauto.
  - apply nth_error_None in E. unfold len in *. lia.
Qed.

Lemma py_index_outside {A : Type} (l : list A) (i : Z) :
  ~ (- len l <= i < len l) -> py_index l i = Raise IndexError.
Proof.
  intros Hi. unfold py_index. pose proof (len_nonneg l).
  destruct (Z.ltb_spec i 0).
  - replace (0 <=? i + len l) with false by (symmetry; apply Z.leb_gt; lia).
    reflexivity.
  - replace (i <? len l) with false by (symmetry; apply Z.ltb_ge; lia).
    rewrite andb_false_r. reflexivity.
Qed.

(** X7: on a well-formed board of size N, [get_letter_at_position] returns
    a letter exactly for indices in [-N, N): a negative index counts from
    the far side (row [i] stands for row [i + N], column likewise), and any
    index outside [-N, N) raises [IndexError]. *)
Theorem get_letter_bounds (b : BoggleBoard) (i j : Z) :
  board_ok b = true ->
  get_letter_at_position b i j
  = if (- size b <=? i) && (i <? size b) && (- size b <=? j) && (j <? size b)
    then Ok (cell b (i mod size b, j mod size b))
    else Raise IndexError.
Proof.
  intros Hb. pose proof Hb as Hok.
  apply board_ok_inv in Hb. destruct Hb as (Hn & Hlen & Hrows).
  unfold get_letter_at_position.
  destruct (Z.leb_spec (- size b) i), (Z.ltb_spec i (size b)); cbn [andb];
    try (rewrite py_index_outside by lia; reflexivity).
  destruct (py_index_wrap (board b) i) as (row & Hrow & Hnth); [lia|].
  rewrite Hrow; cbn [bind]. rewrite Hlen in Hnth.
  assert (Hin : In row (board b)) by (eapply nth_error_In; eauto).
  specialize (Hrows row Hin).
  destruct (Z.leb_spec (- size b) j), (Z.ltb_spec j (size b)); cbn [andb];
    try (rewrite py_index_outside by lia; reflexivity).
  destruct (py_index_wrap row j) as (c & Hc & Hnc); [lia|].
  rewrite Hc. rewrite Hrows in Hnc. unfold cell, cell_at. cbn [fst snd].
  pose proof (Z.mod_pos_bound i (size b)).
  pose proof (Z.mod_pos_bound j (size b)).
  replace (0 <=? i mod size b) with true by (symmetry; apply Z.leb_le; lia).
  replace (0 <=? j mod size b) with true by (symmetry; apply Z.leb_le; lia).
  cbn [andb]. rewrite Hnth, Hnc. reflexivity.
Qed.

Lemma get_letter_bounds_witness :
  get_letter_at_position board_cats (-1) (-4) = Ok "x"%char
  /\ get_letter_at_position board_cats 4 0 = Raise IndexError.
Proof.
  split.
  - exact (eq_trans (get_letter_bounds board_cats (-1) (-4) eq_refl) eq_refl).
  - exact (eq_trans (get_letter_bounds board_cats 4 0 eq_refl) eq_refl).
Defined.

Lemma adjacent_sym (p q : pos) : adjacent p q = adjacent q p.
Proof.
  unfold adjacent, pos_eqb.
  rewrite (Z.eqb_sym (fst p)), (Z.eqb_sym (snd p)).
  replace (fst q - fst p) with (- (fst p - fst q)) by lia.
  replace (snd q - snd p) with (- (snd p - snd q)) by lia.
  rewrite !Z.abs_opp. reflexivity.
Qed.

(** X8: on a well-formed board, for two cells of the grid, each is a key of
    the other's neighbor data or neither is; no cell is a key of its own
    neighbor data; and every entry of the neighbor data pairs a position
    with the letter [get_letter_at_position] returns there. *)
Theorem neighbor_data_symmetric (b : BoggleBoard) (p q : pos) :
  board_ok b = true ->
  in_grid (size b) p = true -> in_grid (size b) q = true ->
  exists dp dq,
    nearest_neighbor_data b (fst p) (snd p) = Ok dp
    /\ nearest_neighbor_data b (fst q) (snd q) = Ok dq
    /\ (In q (dict_keys dp) <-> In p (dict_keys dq))
    /\ ~ In p (dict_keys dp)
    /\ (forall r c, In (r, c) dp ->
                    get_letter_at_position b (fst r) (snd r) = Ok c).
Proof.
  intros Hb Hp Hq. destruct p as [pi pj], q as [qi qj]. cbn [fst snd].
  do 2 eexists.
  split; [apply nearest_neighbor_data_spec; assumption|].
  split; [apply nearest_neighbor_data_spec; assumption|].
  assert (Hk : forall L : list pos,
             dict_keys (map (fun p => (p, cell b p)) L) = L).
  { intros L. unfold dict_keys. rewrite map_map; simpl. apply map_id. }
  rewrite !Hk, !neighbors_of_adjacent.
  split; [|split].
  - rewrite (adjacent_sym (qi, qj) (pi, pj)). tauto.
  - intros [_ Ha]. unfold adjacent in Ha.
    rewrite (proj2 (pos_eqb_eq (pi, pj) (pi, pj)) eq_refl) in Ha.
    rewrite andb_false_r in Ha. discriminate.
  - intros r c Hin. apply in_map_iff in Hin. destruct Hin as (r' & Heq & Hin).
    inversion Heq; subst. apply neighbors_of_in_grid in Hin.
    apply (get_letter_in_grid b r Hb Hin).
Qed.

Lemma neighbor_data_symmetric_witness :
  exists dp dq,
    nearest_neighbor_data board_cats 0 0 = Ok dp
    /\ nearest_neighbor_data board_cats 1 1 = Ok dq
    /\ (In (1, 1) (dict_keys dp) <-> In (0, 0) (dict_keys dq))
    /\ ~ In (0, 0) (dict_keys dp)
    /\ (forall r c, In (r, c) dp ->
                    get_letter_at_position board_cats (fst r) (snd r) = Ok c).
Proof.
  apply (neighbor_data_symmetric board_cats (0, 0) (1, 1)); reflexivity.
Defined.

(** X9: positions and letters agree on any board, well-formed or not: every
    position [positions_for_letter] lists has indices that are not negative
    and [get_letter_at_position] returns the letter there; and a position
    with indices that are not negative where [get_letter_at_position]
    returns the letter is listed. *)
Theorem positions_agree_with_lookup (b : BoggleBoard) (l : letter) :
  (forall p, In p (positions_for_letter b l) ->
             0 <= fst p /\ 0 <= snd p
             /\ get_letter_at_position b (fst p) (snd p) = Ok l)
  /\ (forall i j, 0 <= i -> 0 <= j ->
                  get_letter_at_position b i j = Ok l ->
                  In (i, j) (positions_for_letter b l)).
Proof.
  assert (Hidx : forall (A : Type) (xs : list A) (k : Z) (a : A),
             0 <= k ->
             (py_index xs k = Ok a <-> nth_error xs (Z.to_nat k) = Some a)).
  { intros A xs k a Hk. unfold py_index.
    replace (k <? 0) with false by (symmetry; apply Z.ltb_ge; lia).
    replace (0 <=? k) with true by (symmetry; apply Z.leb_le; lia).
    cbn [andb]. destruct (Z.ltb_spec k (len xs)).
    - destruct (nth_error xs (Z.to_nat k)); split; congruence.
    - split; [discriminate|]. intros Hn.
      assert (Hs : nth_error xs (Z.to_nat k) <> None) by congruence.
      apply nth_error_Some in Hs. unfold len in *. lia. }
  split.
  - intros [i j] Hin. apply In_positions_for_letter in Hin.
    unfold cell_at in Hin. cbn [fst snd] in *.
    destruct (Z.leb_spec 0 i), (Z.leb_spec 0 j); try discriminate.
    cbn [andb] in Hin.
    destruct (nth_error (board b) (Z.to_nat i)) as [row|] eqn:Er;
      [|discriminate].
    repeat split; auto. unfold get_letter_at_position.
    rewrite (proj2 (Hidx _ (board b) i row H) Er). cbn [bind].
    apply Hidx; assumption.
  - intros i j Hi Hj Hg. apply In_positions_for_letter.
    unfold get_letter_at_position in Hg.
    destruct (py_index (board b) i) as [row|] eqn:Er; [|discriminate].
    cbn [bind] in Hg. apply Hidx in Er, Hg; try assumption.
    unfold cell_at. cbn [fst snd].
    replace (0 <=? i) with true by (symmetry; apply Z.leb_le; lia).
    replace (0 <=? j) with true by (symmetry; apply Z.leb_le; lia).
    cbn [andb]. rewrite Er. exact Hg.
Qed.

(** * Further properties of the construction *)

Lemma init_inv (choice : nat -> letter) (kw_size : option size_arg)
    (kw_letters : option string) (b : BoggleBoard) :
  BoggleBoard_init choice kw_size kw_letters = Ok b ->
  effective_size kw_size = Some (size b)
  /\ letter_list b = build_letter_list choice (size b) kw_letters
  /\ build_board (size b) (letter_list b) = Ok (board b)
  /\ len (letter_list b) = size b * size b.
Proof.
  unfold BoggleBoard_init. intros H.
  assert (Hsz : exists sz, effective_size kw_size = Some sz
                           /\ match kw_size with
                              | None => Ok 5
                              | Some (SizeInt n) => Ok n
                              | Some SizeOther => Raise InitError
                              end = Ok sz).
  { destruct kw_size as [[n|]|]; simpl in *; eauto; discriminate. }
  destruct Hsz as (sz & He & Hs). rewrite Hs in H. cbn [bind] in H.
  assert (Hlen : len (build_letter_list choice sz kw_letters) = sz * sz).
  { destruct kw_letters as [letters|].
    - destruct (isalpha letters) eqn:Ea; [|discriminate]. cbn [negb] in H.
      destruct (len (list_ascii_of_string letters) =? sz * sz) eqn:El;
        [|discriminate].
      apply Z.eqb_eq in El. apply isalpha_spec in Ea. destruct Ea as [Hne _].
      destruct letters; [congruence|exact El].
    - unfold build_letter_list, len. rewrite length_map, length_seq. nia. }
  destruct kw_letters as [letters|].
  - destruct (isalpha letters); [|discriminate]. cbn [negb] in H.
    destruct (len (list_ascii_of_string letters) =? sz * sz); [|discriminate].
    cbn [negb bind] in H.
    destruct (build_board sz (build_letter_list choice sz (Some letters)))
      as [rows|] eqn:Eb; [|discriminate].
    inversion H; subst; cbn [size letter_list board]. auto.
  - cbn [bind] in H.
    destruct (build_board sz (build_letter_list choice sz None))
      as [rows|] eqn:Eb; [|discriminate].
    inversion H; subst; cbn [size letter_list board]. auto.
Qed.

(** X10: without letters and with a size [n >= 1] (given, or the default
    5), [__init__] returns a well-formed board of size [n] whose [n * n]
    letters are the successive random draws, laid out row after row. *)
Theorem random_construction (choice : nat -> letter)
    (kw_size : option size_arg) (n : Z) :
  effective_size kw_size = Some n -> 1 <= n ->
  exists b,
    BoggleBoard_init choice kw_size None = Ok b
    /\ size b = n
    /\ letter_list b = map choice (seq 0 (Z.to_nat (n * n)))
    /\ List.concat (board b) = letter_list b
    /\ board_ok b = true.
Proof.
  intros Hsz Hn. unfold BoggleBoard_init.
  rewrite (init_size_step _ _ Hsz). cbn [bind build_letter_list].
  destruct (build_board_square n (map choice (seq 0 (Z.to_nat (n * n)))) Hn)
    as (rows & Hrows & H1 & H2 & H3).
  { unfold len. rewrite length_map, length_seq. nia. }
  rewrite Hrows. cbn [bind]. eexists. split; [reflexivity|].
  cbn [size letter_list board]. repeat split; auto.
  unfold board_ok; cbn [size board]. rewrite !andb_true_iff. repeat split.
  - apply Z.leb_le; lia.
  - apply Z.eqb_eq; assumption.
  - apply forallb_forall. intros row Hrow. apply Z.eqb_eq. auto.
Qed.

Lemma random_construction_witness :
  exists b,
    BoggleBoard_init e_choice None None = Ok b
    /\ size b = 5
    /\ letter_list b = map e_choice (seq 0 (Z.to_nat (5 * 5)))
    /\ List.concat (board b) = letter_list b
    /\ board_ok b = true.
Proof.
  apply (random_construction e_choice None 5); [reflexivity | lia].
Defined.

(** X11: a size of 0 never yields a board: with letters, whatever they
    are, [__init__] raises [InitError]; without letters it raises
    [ValueError] (the zero step of [range] in [build_board]). *)
Theorem zero_size_construction (choice : nat -> letter) :
  (forall letters,
      BoggleBoard_init choice (Some (SizeInt 0)) (Some letters)
      = Raise InitError)
  /\ BoggleBoard_init choice (Some (SizeInt 0)) None = Raise ValueError.
Proof.
  split; [|reflexivity].
  intros letters. unfold BoggleBoard_init. cbn [bind].
  destruct (isalpha letters) eqn:Ea; [|reflexivity]. cbn [negb].
  apply isalpha_spec in Ea. destruct Ea as [Hne _].
  destruct letters as [|c s]; [congruence|].
  replace (len (list_ascii_of_string (String c s)) =? 0 * 0) with false;
    [reflexivity|].
  symmetry. apply Z.eqb_neq. unfold len. cbn [list_ascii_of_string List.length].
  lia.
Qed.

Lemma build_board_negative (n : Z) (ll : list letter) :
  n < 0 -> build_board n ll = Ok [].
Proof.
  intros Hn. unfold build_board, py_range, range_count.
  decide_tests. pose proof (len_nonneg ll).
  assert (Hq : (0 - len ll - n - 1) / - n <= 0).
  { apply Z.lt_succ_r. apply Z.div_lt_upper_bound; lia. }
  replace (Z.to_nat ((0 - len ll - n - 1) / - n)) with 0%nat by lia.
  reflexivity.
Qed.

(** X12: a negative size is accepted.  Without letters, or with [n * n]
    alphabetic letters, [__init__] returns a board, and every board it
    returns for a negative size has no rows: no letter has a position on it
    and [check_word_on_board] answers [False] for every non-empty word. *)
Theorem negative_size_construction (choice : nat -> letter) (n : Z) :
  n < 0 ->
  (exists b, BoggleBoard_init choice (Some (SizeInt n)) None = Ok b)
  /\ (forall letters,
        isalpha letters = true ->
        len (list_ascii_of_string letters) = n * n ->
        exists b,
          BoggleBoard_init choice (Some (SizeInt n)) (Some letters) = Ok b)
  /\ (forall kw_letters b,
        BoggleBoard_init choice (Some (SizeInt n)) kw_letters = Ok b ->
        board b = []
        /\ (forall l, positions_for_letter b l = [])
        /\ (forall c w,
              check_word_on_board b (String c w) = Ok (RBool false))).
Proof.
  intros Hn. split; [|split].
  - unfold BoggleBoard_init. cbn [bind].
    rewrite build_board_negative by assumption. cbn [bind]. eauto.
  - intros letters Ha Hl. unfold BoggleBoard_init. cbn [bind].
    rewrite Ha. cbn [negb]. apply Z.eqb_eq in Hl. rewrite Hl. cbn [negb bind].
    rewrite build_board_negative by assumption. cbn [bind]. eauto.
  - intros kw_letters b H. apply init_inv in H.
    destruct H as (He & _ & Hb & _). cbn [effective_size] in He.
    inversion He as [Hs]. rewrite <- Hs in Hb.
    rewrite build_board_negative in Hb by assumption. inversion Hb as [Hrows].
    assert (Hpos : forall l, positions_for_letter b l = []).
    { intros l. unfold positions_for_letter. rewrite <- Hrows. reflexivity. }
    repeat split; auto.
    intros c w. rewrite check_unfold, Hpos. reflexivity.
Qed.

Lemma negative_size_construction_witness :
  exists b, BoggleBoard_init e_choice (Some (SizeInt (-2))) None = Ok b.
Proof.
  destruct (negative_size_construction e_choice (-2) ltac:(lia)) as [H _].
  exact H.
Defined.

(** X13: a board can be recreated from its letters, as the module's
    docstring proposes: when [__init__] has returned a board whose letters
    are all alphabetic, calling it again with the size of that board and its
    letters joined into a string returns the same board. *)
Theorem recreate_from_letters (choice choice' : nat -> letter)
    (kw_size : option size_arg) (kw_letters : option string)
    (b : BoggleBoard) :
  BoggleBoard_init choice kw_size kw_letters = Ok b ->
  forallb char_isalpha (letter_list b) = true ->
  BoggleBoard_init choice' (Some (SizeInt (size b)))
    (Some (string_of_list_ascii (letter_list b)))
  = Ok b.
Proof.
  intros H Halpha. pose proof H as Hinit. apply init_inv in H.
  destruct H as (He & _ & Hb & Hlen).
  assert (Hnz : size b <> 0).
  { intros Hz. rewrite Hz in Hb. discriminate. }
  unfold BoggleBoard_init. cbn [bind].
  assert (Hne : letter_list b <> []).
  { intros E. rewrite E in Hlen. unfold len in Hlen. simpl in Hlen. nia. }
  assert (Ha : isalpha (string_of_list_ascii (letter_list b)) = true).
  { unfold isalpha. rewrite list_ascii_of_string_of_list_ascii.
    destruct (letter_list b); [congruence|exact Halpha]. }
  rewrite Ha. cbn [negb]. rewrite list_ascii_of_string_of_list_ascii.
  apply Z.eqb_eq in Hlen. unfold letter in *. rewrite Hlen. cbn [negb bind].
  assert (Hll : build_letter_list choice' (size b)
                  (Some (string_of_list_ascii (letter_list b)))
                = letter_list b).
  { unfold build_letter_list.
    destruct (string_of_list_ascii (letter_list b)) eqn:Es.
    - apply (f_equal list_ascii_of_string) in Es.
      rewrite list_ascii_of_string_of_list_ascii in Es. simpl in Es.
      congruence.
    - rewrite <- Es. apply list_ascii_of_string_of_list_ascii. }
  rewrite Hll, Hb. cbn [bind]. destruct b; reflexivity.
Qed.

Lemma recreate_from_letters_witness :
  BoggleBoard_init e_choice (Some (SizeInt (size board_cats)))
    (Some (string_of_list_ascii (letter_list board_cats)))
  = Ok board_cats.
Proof.
  apply (recreate_from_letters e_choice e_choice (Some (SizeInt 4))
           (Some "catsoxxxxxxxxxxx"%string) board_cats);
    reflexivity.
Defined.

(** * Printing *)

Lemma length_append (s1 s2 : string) :
  String.length (s1 ++ s2) = (String.length s1 + String.length s2)%nat.
Proof. induction s1 as [|c s1 IH]; simpl; [reflexivity|]. rewrite IH. reflexivity. Qed.

Lemma length_str_repeat (c : ascii) (k : Z) :
  String.length (str_repeat c k) = Z.to_nat k.
Proof.
  unfold str_repeat. induction (Z.to_nat k) as [|n IH]; simpl; [reflexivity|].
  rewrite IH. reflexivity.
Qed.

Lemma length_row_chars (row : list letter) :
  String.length
    (String.concat EmptyString
       (map (fun c => (" " ++ String c EmptyString ++ " ")%string) row))
  = (3 * List.length row)%nat.
Proof.
  induction row as [|c row IH]; [reflexivity|].
  destruct row as [|c' row]; [reflexivity|].
  change (String.concat EmptyString
            (map (fun c0 => (" " ++ String c0 EmptyString ++ " ")%string)
               (c :: c' :: row)))
    with ((" " ++ String c EmptyString ++ " ")
          ++ EmptyString
          ++ String.concat EmptyString
               (map (fun c0 => (" " ++ String c0 EmptyString ++ " ")%string)
                  (c' :: row)))%string.
  rewrite !length_append, IH. simpl. lia.
Qed.

(** X14: for a well-formed board of size N, [show] prints N + 2 lines, all
    of the same width 3 * N + 4: the two rules of dashes and, between them,
    one line per row. *)
Theorem show_box (b : BoggleBoard) :
  board_ok b = true ->
  len (show b) = size b + 2
  /\ forall line, In line (show b) ->
                  Z.of_nat (String.length line) = 3 * size b + 4.
Proof.
  intros Hb. apply board_ok_inv in Hb. destruct Hb as (Hn & Hlen & Hrows).
  unfold show. split.
  - unfold len in *. rewrite !length_app, length_map. cbn [List.length].
    unfold letter in *. lia.
  - intros line Hin. rewrite !in_app_iff in Hin.
    destruct Hin as [[<-|[]]|[Hin|[<-|[]]]];
      try (rewrite length_str_repeat; lia).
    apply in_map_iff in Hin. destruct Hin as (row & <- & Hrow).
    specialize (Hrows row Hrow). unfold len in Hrows.
    rewrite !length_append, length_row_chars. cbn [String.length].
    unfold letter in *. lia.
Qed.

Lemma show_box_witness :
  len (show board_cats) = 6
  /\ forall line, In line (show board_cats) ->
                  Z.of_nat (String.length line) = 16.
Proof. apply (show_box board_cats). reflexivity. Defined.

(** * Playing words *)

Lemma score_lookup (n : Z) :
  match assoc_get Z.eqb word_length_score n with
  | Some s => if s =? 0 then max_score else s
  | None => max_score
  end = score_of_length n.
Proof.
  unfold score_of_length, word_length_score, max_score. cbn [assoc_get].
  rewrite !(Z.eqb_sym _ n).
  destruct (n =? 2); [reflexivity|]. destruct (n =? 3); [reflexivity|].
  destruct (n =? 4); [reflexivity|]. destruct (n =? 5); reflexivity.
Qed.

Lemma assoc_get_set_same {V : Type} (d : list (string * V)) (k : string)
    (v : V) :
  assoc_get String.eqb (assoc_set String.eqb d k v) k = Some v.
Proof.
  induction d as [|[k' v'] d IH]; simpl.
  - rewrite String.eqb_refl. reflexivity.
  - destruct (String.eqb k' k) eqn:E; simpl; rewrite E; auto.
Qed.

Lemma assoc_get_set_other {V : Type} (d : list (string * V)) (k k0 : string)
    (v : V) :
  k0 <> k ->
  assoc_get String.eqb (assoc_set String.eqb d k v) k0
  = assoc_get String.eqb d k0.
Proof.
  intros Hne. induction d as [|[k' v'] d IH]; simpl.
  - destruct (String.eqb k k0) eqn:E; [|reflexivity].
    apply String.eqb_eq in E. congruence.
  - destruct (String.eqb k' k) eqn:E; simpl.
    + apply String.eqb_eq in E. subst k'.
      destruct (String.eqb k k0) eqn:E0; [|reflexivity].
      apply String.eqb_eq in E0. congruence.
    + rewrite IH. reflexivity.
Qed.

Lemma assoc_set_twice {V : Type} (d : list (string * V)) (k : string)
    (v v' : V) :
  assoc_set String.eqb (assoc_set String.eqb d k v) k v'
  = assoc_set String.eqb d k v'.
Proof.
  induction d as [|[k' v0] d IH]; simpl.
  - rewrite String.eqb_refl. reflexivity.
  - destruct (String.eqb k' k) eqn:E; simpl; rewrite E; [reflexivity|].
    rewrite IH. reflexivity.
Qed.

Lemma assoc_set_keys {V : Type} (d : list (string * V)) (k : string) (v : V) :
  map fst (assoc_set String.eqb d k v)
  = match assoc_get String.eqb d k with
    | Some _ => map fst d
    | None => map fst d ++ [k]
    end.
Proof.
  induction d as [|[k' v'] d IH]; simpl; [reflexivity|].
  destruct (String.eqb k' k) eqn:E; simpl; [reflexivity|].
  rewrite IH. destruct (assoc_get String.eqb d k); reflexivity.
Qed.

Lemma assoc_get_None_keys {V : Type} (d : list (string * V)) (k : string) :
  assoc_get String.eqb d k = None <-> ~ In k (map fst d).
Proof.
  induction d as [|[k' v'] d IH]; simpl; [tauto|].
  destruct (String.eqb k' k) eqn:E.
  - apply String.eqb_eq in E. split; [discriminate|tauto].
  - apply String.eqb_neq in E. rewrite IH. tauto.
Qed.

Lemma sum_from (l : list Z) (a : Z) :
  fold_left Z.add l a = a + fold_left Z.add l 0.
Proof.
  revert a. induction l as [|x l IH]; intros a; simpl; [lia|].
  rewrite (IH (a + x)), (IH x). lia.
Qed.

Lemma sum_assoc_set (d : list (string * Z)) (k : string) (v : Z) :
  fold_left Z.add (map snd (assoc_set String.eqb d k v)) 0
  = fold_left Z.add (map snd d) 0 + v
    - match assoc_get String.eqb d k with
      | Some old => old
      | None => 0
      end.
Proof.
  induction d as [|[k' v'] d IH]; simpl; [lia|].
  destruct (String.eqb k' k) eqn:E; simpl.
  - rewrite (sum_from _ v), (sum_from _ v'). lia.
  - rewrite (sum_from _ v'), IH,
      (sum_from (map snd d) v'). lia.
Qed.

Lemma play_word_inv (o : string -> option bool) (word : string)
    (self self' : BoggleGame) (w : string) (s : Z) :
  play_word o word self = (Returned (Some (w, s)), self') ->
  o word = Some true
  /\ check_word_on_board (game_board self) word = Ok (RBool true)
  /\ w = word /\ s = word_score word
  /\ self' = mkGame (game_board self) (debug self)
               (assoc_set String.eqb (scored_words self) word
                  (word_score word)).
Proof.
  unfold play_word, is_playable_word. cbv zeta.
  rewrite score_lookup. fold (word_score word).
  destruct (o word) as [[|]|]; try (intros H; discriminate H).
  destruct (check_word_on_board (game_board self) word) as [[[|]|]|e];
    cbn [truthy]; intros H; inversion H; subst; auto.
Qed.

Lemma play_word_unscored (o : string -> option bool) (word : string)
    (self self' : BoggleGame) (r : outcome (option (string * Z))) :
  play_word o word self = (r, self') ->
  (forall w s, r <> Returned (Some (w, s))) -> self' = self.
Proof.
  unfold play_word, is_playable_word. cbv zeta.
  destruct (o word) as [[|]|]; try (intros H; inversion H; reflexivity).
  destruct (check_word_on_board (game_board self) word) as [[[|]|]|e];
    cbn [truthy]; intros H Hr; inversion H; subst; auto.
  exfalso. eapply Hr. reflexivity.
Qed.

(** X15: when [play_word] returns a score, the word is in the dictionary
    and [check_word_on_board] answered [True]; the score is 2, 5, 6 or 8 for
    a word of 2, 3, 4 or 5 letters and 10 for any other length; afterwards
    the word is recorded in [scored_words] with that score, the scores of the
    other words are as before, and the board is the same.  In every other
    case the game object is left as it was. *)
Theorem play_word_records_score (o : string -> option bool) (word : string)
    (self : BoggleGame) :
  let r := fst (play_word o word self) in
  let self' := snd (play_word o word self) in
  (forall w s,
      r = Returned (Some (w, s)) ->
      w = word /\ s = score_of_length (len (list_ascii_of_string word))
      /\ o word = Some true
      /\ check_word_on_board (game_board self) word = Ok (RBool true)
      /\ assoc_get String.eqb (scored_words self') word = Some s
      /\ (forall w', w' <> word ->
                     assoc_get String.eqb (scored_words self') w'
                     = assoc_get String.eqb (scored_words self) w')
      /\ game_board self' = game_board self)
  /\ ((forall w s, r <> Returned (Some (w, s))) -> self' = self).
Proof.
  cbv zeta. destruct (play_word o word self) as [r self'] eqn:E.
  cbn [fst snd]. split.
  - intros w s ->. apply play_word_inv in E.
    destruct E as (Ho & Hc & -> & -> & ->). cbn [scored_words game_board].
    repeat split; auto.
    + apply assoc_get_set_same.
    + intros w' Hne. apply assoc_get_set_other. assumption.
  - intros Hr. eapply play_word_unscored; eauto.
Qed.

(** X16: playing the same word again, the lookup answering as before,
    changes nothing: the second call has the outcome of the first and leaves
    the game object as the first call left it, so the word is counted once
    in [current_score]. *)
Theorem replay_changes_nothing (o : string -> option bool) (word : string)
    (self : BoggleGame) :
  play_word o word (snd (play_word o word self)) = play_word o word self
  /\ current_score (snd (play_word o word (snd (play_word o word self))))
     = current_score (snd (play_word o word self)).
Proof.
  assert (H : play_word o word (snd (play_word o word self))
              = play_word o word self).
  { unfold play_word, is_playable_word. cbv zeta.
    destruct (o word) as [[|]|] eqn:Eo; cbn [snd]; rewrite ?Eo; try reflexivity.
    destruct (check_word_on_board (game_board self) word) as [[[|]|]|e] eqn:Ec;
      cbn [truthy snd game_board debug scored_words];
      rewrite ?Eo, ?Ec; cbn [truthy]; try reflexivity.
    rewrite assoc_set_twice. reflexivity. }
  split; [exact H|]. rewrite H. reflexivity.
Qed.

(** X17: when [play_word] returns a score, [current_score] grows by that
    score for a word that was not recorded, and otherwise changes by the
    difference between the new score and the recorded one. *)
Theorem current_score_after_play (o : string -> option bool) (word : string)
    (self self' : BoggleGame) (w : string) (s : Z) :
  play_word o word self = (Returned (Some (w, s)), self') ->
  current_score self'
  = current_score self + s
    - match assoc_get String.eqb (scored_words self) word with
      | Some recorded => recorded
      | None => 0
      end.
Proof.
  intros H. apply play_word_inv in H. destruct H as (_ & _ & -> & -> & ->).
  unfold current_score. cbn [scored_words]. apply sum_assoc_set.
Qed.

Lemma current_score_after_play_witness :
  current_score
    (mkGame board_cats 0 (assoc_set String.eqb [] "cat"%string 5))
  = current_score game_cats + 5
    - match assoc_get String.eqb (scored_words game_cats) "cat"%string with
      | Some recorded => recorded
      | None => 0
      end.
Proof.
  apply (current_score_after_play any_word "cat"%string game_cats _
           "cat"%string 5).
  reflexivity.
Defined.

Lemma In_assoc_set {V : Type} (d : list (string * V)) (k : string) (v : V)
    (x : string * V) :
  In x (assoc_set String.eqb d k v) -> x = (k, v) \/ In x d.
Proof.
  induction d as [|[k' v'] d IH]; simpl.
  - intros [H|[]]; auto.
  - destruct (String.eqb k' k) eqn:E; simpl.
    + apply String.eqb_eq in E. subst k'. intros [H|H]; auto.
    + intros [H|H]; auto. destruct (IH H); auto.
Qed.

Lemma NoDup_snoc {A : Type} (l : list A) (a : A) :
  NoDup l -> ~ In a l -> NoDup (l ++ [a]).
Proof.
  induction l as [|x l IH]; simpl; intros Hnd Hin.
  - constructor; [tauto|constructor].
  - inversion Hnd; subst. constructor.
    + rewrite in_app_iff. simpl. intros [H|[H|[]]]; [tauto|].
      subst. tauto.
    + apply IH; tauto.
Qed.

Lemma play_word_keeps (o : string -> option bool) (word : string)
    (self : BoggleGame) :
  NoDup (current_words self) ->
  (forall w s, In (w, s) (scored_words self) -> s = word_score w) ->
  let self' := snd (play_word o word self) in
  NoDup (current_words self')
  /\ (forall w s, In (w, s) (scored_words self') -> s = word_score w)
  /\ (forall w, In w (current_words self) -> In w (current_words self'))
  /\ game_board self' = game_board self.
Proof.
  intros Hnd Hsc. cbv zeta.
  destruct (play_word o word self) as [r self'] eqn:E. cbn [snd].
  assert (Hcase : (exists w s, r = Returned (Some (w, s)))
                  \/ (forall w s, r <> Returned (Some (w, s)))).
  { destruct r as [[[w s]|]|f]; [left; eauto| |]; right; intros; discriminate. }
  destruct Hcase as [(w & s & ->)|Hr].
  - apply play_word_inv in E. destruct E as (_ & _ & -> & -> & ->).
    unfold current_words in *. cbn [scored_words game_board].
    rewrite assoc_set_keys. repeat split.
    + destruct (assoc_get String.eqb (scored_words self) word) eqn:Eg;
        [assumption|].
      apply NoDup_snoc; [assumption|]. apply assoc_get_None_keys. assumption.
    + intros w s Hin. apply In_assoc_set in Hin.
      destruct Hin as [Hin|Hin]; [inversion Hin; reflexivity|auto].
    + intros w Hin.
      destruct (assoc_get String.eqb (scored_words self) word);
        [assumption|apply in_app_iff; auto].
  - rewrite (play_word_unscored _ _ _ _ _ E Hr). auto.
Qed.

Lemma play_word_list_keeps (o : string -> option bool)
    (word_list : list string) :
  forall acc self,
    NoDup (current_words self) ->
    (forall w s, In (w, s) (scored_words self) -> s = word_score w) ->
    let self' := snd (play_word_list_loop o word_list acc self) in
    NoDup (current_words self')
    /\ (forall w s, In (w, s) (scored_words self') -> s = word_score w)
    /\ (forall w, In w (current_words self) -> In w (current_words self'))
    /\ game_board self' = game_board self.
Proof.
  induction word_list as [|word rest IH]; intros acc self Hnd Hsc; cbv zeta.
  - simpl. auto.
  - cbn [play_word_list_loop].
    destruct (play_word_keeps o word self Hnd Hsc) as (H1 & H2 & H3 & H4).
    destruct (play_word o word self) as [r self1]. cbn [snd] in *.
    destruct r as [[[w s]|]|f]; cbn [snd]; auto.
    destruct (IH (assoc_set String.eqb acc w s) self1 H1 H2)
      as (K1 & K2 & K3 & K4).
    repeat split; auto. congruence.
Qed.

(** X18: the recorded words stay a set with the right scores.  When no
    word is recorded twice and every recorded score is the score of its
    word's length, the same holds after [play_word] and after
    [play_word_list], however they end; no recorded word is dropped and the
    board is the same. *)
Theorem scored_words_invariant (o : string -> option bool)
    (word_list : list string) (self : BoggleGame) :
  NoDup (current_words self) ->
  (forall w s, In (w, s) (scored_words self) -> s = word_score w) ->
  forall self',
    (self' = snd (play_word_list o word_list self)
     \/ exists word, self' = snd (play_word o word self)) ->
    NoDup (current_words self')
    /\ (forall w s, In (w, s) (scored_words self') -> s = word_score w)
    /\ (forall w, In w (current_words self) -> In w (current_words self'))
    /\ game_board self' = game_board self.
Proof.
  intros Hnd Hsc self' [->|[word ->]].
  - apply (play_word_list_keeps o word_list [] self Hnd Hsc).
  - apply (play_word_keeps o word self Hnd Hsc).
Qed.

Lemma scored_words_invariant_witness :
  NoDup (current_words (snd (play_word_list any_word
                               ["cat"%string; "cats"%string] game_cats)))
  /\ (forall w s,
        In (w, s) (scored_words (snd (play_word_list any_word
                                        ["cat"%string; "cats"%string]
                                        game_cats))) ->
        s = word_score w)
  /\ (forall w, In w (current_words game_cats) ->
                In w (current_words (snd (play_word_list any_word
                                            ["cat"%string; "cats"%string]
                                            game_cats))))
  /\ game_board (snd (play_word_list any_word
                        ["cat"%string; "cats"%string] game_cats))
     = game_board game_cats.
Proof.
  apply (scored_words_invariant any_word ["cat"%string; "cats"%string]
           game_cats).
  - constructor.
  - intros w s [].
  - left. reflexivity.
Defined.

Lemma play_word_list_loop_inv (o : string -> option bool)
    (word_list : list string) :
  forall acc self results self',
    play_word_list_loop o word_list acc self = (Returned results, self') ->
    game_board self' = game_board self
    /\ (forall w, In w word_list ->
                  o w = Some true
                  /\ check_word_on_board (game_board self) w = Ok (RBool true)
                  /\ assoc_get String.eqb results w = Some (word_score w)
                  /\ assoc_get String.eqb (scored_words self') w
                     = Some (word_score w))
    /\ (forall w, assoc_get String.eqb acc w = Some (word_score w) ->
                  assoc_get String.eqb results w = Some (word_score w))
    /\ (forall w, assoc_get String.eqb (scored_words self) w
                  = Some (word_score w) ->
                  assoc_get String.eqb (scored_words self') w
                  = Some (word_score w)).
Proof.
  induction word_list as [|word rest IH]; intros acc self results self' H.
  - simpl in H. inversion H; subst.
    split; [reflexivity|]. split; [intros w []|]. split; auto.
  - cbn [play_word_list_loop] in H.
    destruct (play_word o word self) as [r self1] eqn:E.
    destruct r as [[[w s]|]|f]; try discriminate.
    apply play_word_inv in E. destruct E as (Ho & Hc & -> & -> & ->).
    apply IH in H. cbn [game_board scored_words] in H.
    destruct H as (Hb & Hrest & Hacc & Hsc).
    assert (Hkeep : forall (d : list (string * Z)) w,
               assoc_get String.eqb d w = Some (word_score w) ->
               assoc_get String.eqb
                 (assoc_set String.eqb d word (word_score word)) w
               = Some (word_score w)).
    { intros d w Hw. destruct (string_dec w word) as [->|Hne].
      - apply assoc_get_set_same.
      - rewrite assoc_get_set_other; assumption. }
    split; [exact Hb|]. split; [|split].
    + intros w [<-|Hin]; [|apply (Hrest w Hin)].
      repeat split; auto.
      * apply Hacc. apply assoc_get_set_same.
      * apply Hsc. apply assoc_get_set_same.
    + intros w Hw. apply Hacc, Hkeep, Hw.
    + intros w Hw. apply Hsc, Hkeep, Hw.
Qed.

(** X19: [play_word_list] returns only when every word of the list is in
    the dictionary and [check_word_on_board] answers [True] for it; the dict
    returned and [scored_words] then hold every word of the list with the
    score of its length.  A list whose first word is not in the dictionary,
    or is answered [False] by the search, raises [TypeError] and leaves the
    game object as it was. *)
Theorem play_word_list_all_or_error (o : string -> option bool)
    (self : BoggleGame) :
  (forall word_list results self',
      play_word_list o word_list self = (Returned results, self') ->
      forall w, In w word_list ->
                o w = Some true
                /\ check_word_on_board (game_board self) w = Ok (RBool true)
                /\ assoc_get String.eqb results w = Some (word_score w)
                /\ assoc_get String.eqb (scored_words self') w
                   = Some (word_score w))
  /\ (forall w rest,
        o w = Some false
        \/ (o w = Some true
            /\ check_word_on_board (game_board self) w = Ok (RBool false)) ->
        play_word_list o (w :: rest) self = (Failed TypeError, self)).
Proof.
  split.
  - intros word_list results self' H.
    apply play_word_list_loop_inv in H. tauto.
  - intros w rest H. unfold play_word_list. cbn [play_word_list_loop].
    unfold play_word, is_playable_word. cbv zeta.
    destruct H as [->|[-> ->]]; reflexivity.
Qed.

(** X20: the length check of [is_playable_word] stops nothing: for a
    one-letter word that the dictionary accepts and whose letter is on the
    board, [play_word] raises [IndexError], leaving the game object as it
    was. *)
Theorem one_letter_word_crashes_play (o : string -> option bool)
    (self : BoggleGame) (c : letter) :
  o (String c EmptyString) = Some true ->
  positions_for_letter (game_board self) c <> [] ->
  play_word o (String c EmptyString) self = (Failed (Exn IndexError), self).
Proof.
  intros Ho Hpos. unfold play_word, is_playable_word. cbv zeta. rewrite Ho.
  rewrite check_unfold.
  destruct (positions_for_letter (game_board self) c) as [|[i j] ps];
    [congruence|].
  reflexivity.
Qed.

Lemma one_letter_word_crashes_play_witness :
  play_word any_word "c"%string game_cats = (Failed (Exn IndexError), game_cats).
Proof.
  apply (one_letter_word_crashes_play any_word game_cats "c"%char).
  - reflexivity.
  - vm_compute. discriminate.
Defined.

(** * Boards without repeated letters *)

Lemma occurs_once (b : BoggleBoard) (p q : pos) (c : letter) :
  len (positions_for_letter b c) <= 1 ->
  cell_at b p = Some c -> cell_at b q = Some c -> p = q.
Proof.
  intros Hlen Hp Hq. apply In_positions_for_letter in Hp, Hq.
  destruct (positions_for_letter b c) as [|x [|y l]].
  - destruct Hp.
  - destruct Hp as [<-|[]], Hq as [<-|[]]. reflexivity.
  - unfold len in Hlen. cbn [List.length] in Hlen. lia.
Qed.

Lemma trace_complete_distinct (b : BoggleBoard) :
  board_ok b = true ->
  (forall l, len (positions_for_letter b l) <= 1) ->
  forall rest path p cur,
    rest <> [] ->
    is_trace b (p :: path) (cur :: rest) = true ->
    exists ll',
      recursive_string_search b (fst p) (snd p) (cur :: rest)
      = (Ok (RBool true), ll').
Proof.
  intros Hb Hd. induction rest as [|next rest IH]; intros path p cur Hne Ht;
    [congruence|].
  destruct (is_trace_head _ _ _ _ _ Ht) as [Hp Ht'].
  apply In_positions_for_letter in Hp.
  pose proof (cell_at_in_grid b _ _ Hb Hp) as Hpg.
  destruct path as [|q path]; [discriminate|].
  assert (Hadj : adjacent p q = true).
  { cbn [is_trace] in Ht. rewrite !andb_true_iff in Ht. tauto. }
  destruct (is_trace_head _ _ _ _ _ Ht') as [Hq _].
  apply In_positions_for_letter in Hq.
  pose proof (cell_at_in_grid b _ _ Hb Hq) as Hqg.
  destruct p as [i j]. cbn [fst snd].
  rewrite (search_step b i j cur next rest Hb Hpg).
  destruct (first_match b (i, j) next) as [q'|] eqn:Ef.
  - assert (q' = q).
    { pose proof (first_match_in_grid _ _ _ _ Ef) as Hg.
      unfold first_match in Ef. apply find_some in Ef. destruct Ef as [_ Hl].
      apply letter_eqb_eq in Hl.
      destruct (get_letter_in_grid b q' Hb Hg) as [_ Hc]. rewrite Hl in Hc.
      apply (occurs_once b q' q next (Hd next) Hc Hq). }
    subst q'. destruct rest as [|c rest]; [eauto|].
    apply (IH path q next); [discriminate|exact Ht'].
  - exfalso. unfold first_match in Ef.
    assert (Hin : In q (neighbors_of (size b) (i, j)))
      by (apply neighbors_of_adjacent; auto).
    pose proof (find_none _ _ Ef q Hin) as Hf. cbv beta in Hf.
    unfold cell in Hf. rewrite Hq in Hf.
    rewrite (proj2 (letter_eqb_eq next next) eq_refl) in Hf. discriminate.
Qed.

(** X21: on a well-formed board on which no letter occurs twice, the
    search is exact for words of two letters or more: it answers [True] or
    [False], and [True] exactly when the word has a trace (cells holding its
    letters in order, each touching the one before, a cell possibly used more
    than once). *)
Theorem exact_without_repeated_letters (b : BoggleBoard) (c : letter)
    (w : string) :
  board_ok b = true ->
  (forall l, len (positions_for_letter b l) <= 1) ->
  w <> EmptyString ->
  (check_word_on_board b (String c w) = Ok (RBool true)
   <-> exists path,
         is_trace b path (list_ascii_of_string (String c w)) = true)
  /\ (check_word_on_board b (String c w) = Ok (RBool true)
      \/ check_word_on_board b (String c w) = Ok (RBool false)).
Proof.
  intros Hb Hd Hw.
  assert (Hrest : list_ascii_of_string w <> [])
    by (destruct w; [congruence|discriminate]).
  rewrite check_unfold. cbn [list_ascii_of_string].
  destruct (positions_for_letter b c) as [|[i j] ps] eqn:Ep.
  - split; [|auto]. split; [discriminate|].
    intros (path & Ht). destruct path as [|p path]; [discriminate|].
    apply is_trace_head in Ht. rewrite Ep in Ht. destruct Ht as [[] _].
  - assert (ps = []).
    { specialize (Hd c). rewrite Ep in Hd. unfold len in Hd.
      destruct ps; [reflexivity|]. cbn [List.length] in Hd. lia. }
    subst ps.
    destruct (start_in_grid b c (i, j) Hb) as [Hp Hc];
      [rewrite Ep; left; reflexivity|].
    cbn [start_loop].
    destruct (search_total b Hb (c :: list_ascii_of_string w) i j Hp)
      as (bo & ll' & Hs).
    { unfold len. destruct (list_ascii_of_string w); [congruence|].
      cbn [List.length]. lia. }
    rewrite Hs. cbn [truthy]. split.
    + split.
      * intros Ht. destruct bo; [|discriminate].
        destruct (trace_sound_aux b Hb _ c i j ll' Hp Hs) as (path & Hpath).
        exists ((i, j) :: path). unfold cell in Hpath. rewrite Hc in Hpath.
        exact Hpath.
      * intros (path & Ht). destruct path as [|p path]; [discriminate|].
        assert (p = (i, j)).
        { destruct (is_trace_head _ _ _ _ _ Ht) as [Hin _].
          rewrite Ep in Hin. destruct Hin as [<-|[]]. reflexivity. }
        subst p.
        destruct (trace_complete_distinct b Hb Hd _ _ _ _ Hrest Ht)
          as (l2 & H2).
        cbn [fst snd] in H2. rewrite Hs in H2. inversion H2; subst.
        reflexivity.
    + destruct bo; auto.
Qed.

Lemma exact_without_repeated_letters_witness :
  (check_word_on_board board_abcd "adb" = Ok (RBool true)
   <-> exists path,
         is_trace board_abcd path (list_ascii_of_string "adb") = true)
  /\ (check_word_on_board board_abcd "adb" = Ok (RBool true)
      \/ check_word_on_board board_abcd "adb" = Ok (RBool false)).
Proof.
  apply (exact_without_repeated_letters board_abcd "a"%char "db"%string).
  - reflexivity.
  - intros l. destruct l as [[] [] [] [] [] [] [] []];
      vm_compute; discriminate.
  - discriminate.
Defined.

(** * Prefixes of a traced word *)

Lemma prefix_traced_aux (b : BoggleBoard) :
  board_ok b = true ->
  forall rest cur i j x ll',
    rest <> [] ->
    in_grid (size b) (i, j) = true ->
    recursive_string_search b i j (cur :: rest ++ [x])
    = (Ok (RBool true), ll') ->
    exists ll'',
      recursive_string_search b i j (cur :: rest) = (Ok (RBool true), ll'').
Proof.
  intros Hb. induction rest as [|next rest IH]; intros cur i j x ll' Hne Hp H;
    [congruence|].
  cbn [app] in H.
  rewrite (search_step b i j cur next (rest ++ [x]) Hb Hp) in H.
  rewrite (search_step b i j cur next rest Hb Hp).
  destruct (first_match b (i, j) next) as [[qi qj]|] eqn:Ef; [|discriminate].
  pose proof (first_match_in_grid _ _ _ _ Ef) as Hq.
  cbn [fst snd] in *.
  destruct rest as [|c rest]; [eauto|].
  cbn [app] in H. apply (IH next qi qj x ll'); [discriminate|exact Hq|exact H].
Qed.

(** X22: a single trace attempt is closed under prefixes.  On a
    well-formed board, when [recursive_string_search] from an in-grid cell
    answers [True] for a list of letters, it answers [True] from the same cell
    for the list without its last letter, as long as two letters remain. *)
Theorem prefix_traced (b : BoggleBoard) (i j : Z) (cur x : letter)
    (rest ll' : list letter) :
  board_ok b = true ->
  in_grid (size b) (i, j) = true ->
  rest <> [] ->
  recursive_string_search b i j (cur :: rest ++ [x]) = (Ok (RBool true), ll') ->
  recursive_string_search b i j (cur :: rest)
  = (Ok (RBool true), [last rest cur]).
Proof.
  intros Hb Hp Hne H.
  destruct (prefix_traced_aux b Hb rest cur i j x ll' Hne Hp H) as (l2 & H2).
  destruct (search_outcome_aux b _ i j _ _ H2)
    as (_ & (pre & Hpre & _) & Hlen & _).
  specialize (Hlen eq_refl).
  destruct l2 as [|y [|z l2]]; try discriminate.
  rewrite H2. repeat f_equal.
  assert (Hl : last (cur :: rest) cur = last (pre ++ [y]) cur)
    by (rewrite Hpre; reflexivity).
  rewrite last_last in Hl. rewrite <- Hl.
  destruct rest; [congruence|reflexivity].
Qed.

Lemma prefix_traced_witness :
  recursive_string_search board_cats 0 0 (list_ascii_of_string "cat")
  = (Ok (RBool true), list_ascii_of_string "t").
Proof.
  apply (prefix_traced board_cats 0 0 "c"%char "s"%char
           (list_ascii_of_string "at") (list_ascii_of_string "s"));
    try reflexivity.
  discriminate.
Defined.

(** * Reading a constructed board *)

Lemma build_board_rows (n : Z) (ll : list letter) :
  1 <= n -> len ll = n * n ->
  build_board n ll
  = Ok (map (fun t => firstn (Z.to_nat n) (skipn (t * Z.to_nat n) ll))
          (seq 0 (Z.to_nat n))).
Proof.
  intros Hn Hlen. unfold build_board, py_range. rewrite Hlen.
  decide_tests. rewrite (range_count_square n Hn). cbn [bind].
  rewrite map_map. f_equal. apply map_ext_in.
  intros t Ht. apply in_seq in Ht. apply py_slice_chunk; auto. lia.
Qed.

(** X23: the letters of a constructed board are read back in row-major
    order.  When [__init__] has returned a board of size N >= 1, the letter
    [get_letter_at_position] returns at row [i], column [j] of the grid is
    the letter at index [i * N + j] of the board's letter list (the letters
    supplied, or the random draws). *)
Theorem lookup_is_row_major (choice : nat -> letter)
    (kw_size : option size_arg) (kw_letters : option string)
    (b : BoggleBoard) (i j : Z) :
  BoggleBoard_init choice kw_size kw_letters = Ok b ->
  1 <= size b ->
  0 <= i < size b -> 0 <= j < size b ->
  get_letter_at_position b i j = py_index (letter_list b) (i * size b + j)
  /\ exists c, get_letter_at_position b i j = Ok c.
Proof.
  intros H Hn Hi Hj. apply init_inv in H. destruct H as (_ & _ & Hb & Hlen).
  rewrite (build_board_rows _ _ Hn Hlen) in Hb. inversion Hb as [Hrows].
  set (m := Z.to_nat (size b)) in *.
  assert (Hrow : nth_error (board b) (Z.to_nat i)
                 = Some (firstn m (skipn (Z.to_nat i * m) (letter_list b)))).
  { rewrite <- Hrows, nth_error_map, nth_error_seq.
    replace (Z.to_nat i <? m)%nat with true
      by (symmetry; apply Nat.ltb_lt; lia).
    reflexivity. }
  destruct (py_index_in_range (letter_list b) (i * size b + j))
    as (c & Hc & Hnc); [nia|].
  assert (Hcell : nth_error
                    (firstn m (skipn (Z.to_nat i * m) (letter_list b)))
                    (Z.to_nat j) = Some c).
  { rewrite nth_error_firstn.
    replace (Z.to_nat j <? m)%nat with true
      by (symmetry; apply Nat.ltb_lt; lia).
    rewrite nth_error_skipn, <- Hnc. f_equal. nia. }
  assert (Hget : get_letter_at_position b i j = Ok c).
  { unfold get_letter_at_position.
    destruct (py_index_in_range (board b) i) as (row & Hr & Hnr).
    { rewrite <- Hrows. unfold len. rewrite length_map, length_seq. lia. }
    rewrite Hr. cbn [bind]. rewrite Hrow in Hnr. inversion Hnr; subst row.
    destruct (py_index_in_range
                (firstn m (skipn (Z.to_nat i * m) (letter_list b))) j)
      as (c' & Hc' & Hnc').
    { unfold len. rewrite firstn_length_le; [lia|].
      rewrite length_skipn. unfold len in Hlen. nia. }
    rewrite Hc'. congruence. }
  split; [congruence|eauto].
Qed.

Lemma lookup_is_row_major_witness :
  get_letter_at_position board_cats 1 0
  = py_index (letter_list board_cats) (1 * size board_cats + 0)
  /\ exists c, get_letter_at_position board_cats 1 0 = Ok c.
Proof.
  apply (lookup_is_row_major e_choice (Some (SizeInt 4))
           (Some "catsoxxxxxxxxxxx"%string) board_cats 1 0);
    try reflexivity; simpl; lia.
Defined.

(** * The board is left as it was *)

Lemma write_last (st : store) (x v : list letter) :
  write (st ++ [x]) (List.length st) v = st ++ [v].
Proof.
  induction st as [|y st IH]; simpl; [reflexivity|]. rewrite IH. reflexivity.
Qed.

Lemma read_last (st : store) (v : list letter) :
  read (st ++ [v]) (List.length st) = v.
Proof. unfold read. apply nth_middle. Qed.

Lemma read_old (st : store) (v : list letter) (a : addr) :
  (a < List.length st)%nat -> read (st ++ [v]) a = read st a.
Proof. intros Ha. unfold read. apply app_nth1. assumption. Qed.

Lemma view_extend (hb : HeapBoard) (st : store) (v : list letter) :
  heap_board_valid hb st = true -> view (st ++ [v]) hb = view st hb.
Proof.
  unfold heap_board_valid. cbn [forallb]. rewrite andb_true_iff.
  intros [Hl Hrows]. apply Nat.ltb_lt in Hl. rewrite forallb_forall in Hrows.
  unfold view. rewrite (read_old st v _ Hl). f_equal.
  apply map_ext_in. intros a Ha. apply read_old.
  apply Nat.ltb_lt. apply Hrows. assumption.
Qed.

Lemma heap_board_valid_extend (hb : HeapBoard) (st : store)
    (v : list letter) :
  heap_board_valid hb st = true -> heap_board_valid hb (st ++ [v]) = true.
Proof.
  unfold heap_board_valid. rewrite !forallb_forall. intros H a Ha.
  specialize (H a Ha). apply Nat.ltb_lt in H. apply Nat.ltb_lt.
  rewrite length_app. simpl. lia.
Qed.

Lemma heap_search_unfold (hb : HeapBoard) (i j : Z) (a : addr)
    (cur next : letter) (rest : list letter) (st : store) :
  heap_search hb i j a (cur :: next :: rest) st
  = match nearest_neighbor_data (view (write st a (next :: rest)) hb) i j with
    | Raise e => (Raise e, write st a (next :: rest))
    | Ok nn_data =>
        if negb (existsb (letter_eqb next) (dict_values nn_data)) then
          (Ok (RBool false), write st a (next :: rest))
        else
          match find (fun it => letter_eqb (snd it) next)
                     (dict_items nn_data) with
          | Some (t_pos, _) =>
              if len (next :: rest) =? 1
              then (Ok (RBool true), write st a (next :: rest))
              else heap_search hb (fst t_pos) (snd t_pos) a (next :: rest)
                     (write st a (next :: rest))
          | None => (Ok RNone, write st a (next :: rest))
          end
    end.
Proof. reflexivity. Qed.

(** With the list object at the end of the store, past the lists of the
    board, the search on the store does what the search on the board it
    sees does, and writes that one object only. *)
Lemma heap_search_run (hb : HeapBoard) (st : store) :
  heap_board_valid hb st = true ->
  forall ll i j,
    heap_search hb i j (List.length st) ll (st ++ [ll])
    = (fst (recursive_string_search (view st hb) i j ll),
       st ++ [snd (recursive_string_search (view st hb) i j ll)]).
Proof.
  intros Hv. induction ll as [|cur tl IH]; intros i j; [reflexivity|].
  destruct tl as [|next rest].
  - simpl. rewrite write_last. reflexivity.
  - rewrite heap_search_unfold, search_unfold, write_last.
    rewrite (view_extend hb st _ Hv).
    destruct (nearest_neighbor_data (view st hb) i j) as [d|e];
      [|reflexivity].
    destruct (negb (existsb (letter_eqb next) (dict_values d)));
      [reflexivity|].
    destruct (find (fun it => letter_eqb (snd it) next) (dict_items d))
      as [[t_pos c]|]; [|reflexivity].
    destruct (len (next :: rest) =? 1); [reflexivity|].
    apply IH.
Qed.

Lemma heap_start_loop_run (hb : HeapBoard) (st : store) :
  heap_board_valid hb st = true ->
  forall starts status ll,
    heap_start_loop hb starts status (List.length st) (st ++ [ll])
    = (fst (start_loop (view st hb) starts status ll),
       st ++ [snd (start_loop (view st hb) starts status ll)]).
Proof.
  intros Hv. induction starts as [|[i j] starts IH]; intros status ll;
    [reflexivity|].
  cbn [heap_start_loop start_loop]. unfold heap_recursive_string_search.
  rewrite read_last, (heap_search_run hb st Hv).
  destruct (recursive_string_search (view st hb) i j ll) as [[s|e] ll'];
    cbn [fst snd]; [|reflexivity].
  destruct (truthy s); [reflexivity|]. apply IH.
Qed.

Lemma heap_check_run (hb : HeapBoard) (word : string) (st : store) :
  heap_board_valid hb st = true ->
  exists left,
    heap_check_word_on_board hb word st
    = (check_word_on_board (view st hb) word, st ++ [left]).
Proof.
  intros Hv. unfold heap_check_word_on_board, check_word_on_board, alloc.
  rewrite read_last, (view_extend hb st _ Hv).
  pose proof (heap_start_loop_run hb st Hv) as Hrun.
  unfold letter in *.
  destruct (py_index (list_ascii_of_string word) 0) as [first|e];
    cbn [bind]; [|eauto].
  destruct (negb (len (positions_for_letter (view st hb) first) =? 0));
    [|eauto].
  rewrite Hrun. eauto.
Qed.

(** C7: [check_word_on_board] changes no list that was there before the
    call: the store after the call is the store before it with one more
    object, the list made from the word, so the board's letter matrix is
    the same; the call answers what the search answers on that matrix; and
    a second call with the same word, made on the store the first one left,
    has the same outcome and again leaves the matrix as it was. *)
Theorem check_word_on_board_frame (hb : HeapBoard) (word : string)
    (st : store) :
  heap_board_valid hb st = true ->
  let first_call := heap_check_word_on_board hb word st in
  let second_call := heap_check_word_on_board hb word (snd first_call) in
  (exists left, snd first_call = st ++ [left])
  /\ (forall a, (a < List.length st)%nat ->
                read (snd first_call) a = read st a)
  /\ board (view (snd first_call) hb) = board (view st hb)
  /\ fst first_call = check_word_on_board (view st hb) word
  /\ fst second_call = fst first_call
  /\ board (view (snd second_call) hb) = board (view st hb).
Proof.
  intros Hv. cbv zeta.
  destruct (heap_check_run hb word st Hv) as (left & H1). rewrite H1.
  cbn [fst snd].
  pose proof (heap_board_valid_extend hb st left Hv) as Hv1.
  destruct (heap_check_run hb word (st ++ [left]) Hv1) as (left2 & H2).
  rewrite H2. cbn [fst snd].
  rewrite (view_extend hb (st ++ [left]) left2 Hv1),
    (view_extend hb st left Hv).
  repeat split; eauto.
  intros a Ha. apply read_old. assumption.
Qed.

Lemma check_word_on_board_frame_witness :
  let hb := fst (load_board board_cats []) in
  let st := snd (load_board board_cats []) in
  let first_call := heap_check_word_on_board hb "cat" st in
  let second_call := heap_check_word_on_board hb "cat" (snd first_call) in
  view st hb = board_cats
  /\ (exists left, snd first_call = st ++ [left])
  /\ (forall a, (a < List.length st)%nat ->
                read (snd first_call) a = read st a)
  /\ board (view (snd first_call) hb) = board (view st hb)
  /\ fst first_call = check_word_on_board (view st hb) "cat"
  /\ fst second_call = fst first_call
  /\ board (view (snd second_call) hb) = board (view st hb).
Proof.
  split; [reflexivity|].
  apply (check_word_on_board_frame (fst (load_board board_cats []))
           "cat"%string (snd (load_board board_cats []))).
  reflexivity.
Defined.
